(** * LogLens: the incremental tail / watch engine

    A shallow embedding of [src/tail.ts] (class [LogTailer], the polling
    driver) and [src/watcher.ts] (class [LogWatcher], the chokidar driver),
    with the properties of line splitting, cursor handling and rotation.

    Conventions of the embedding
    - a JavaScript string is the list of its UTF-16 code units;
    - [new Date()] timestamps of events are left out;
    - [emit] appends to the log of emitted events: a listener is taken to be
      registered for every event kind, as [cli.ts] does;
    - the file system is a [World]: what [path.resolve], [fs.existsSync],
      [fs.statSync] answer and what a read stream opened on a byte range
      delivers;
    - a read stream runs after the synchronous code that opened it: opened
      streams are queued and drained afterwards, in the order of opening. *)

From Stdlib Require Import ZArith NArith Ascii String.
From Stdlib.Strings Require Import Byte.
From stdpp Require Import gmap strings list.

Local Open Scope Z_scope.

(** ** JavaScript strings *)

Definition code_unit := N.
Definition jsstring := list code_unit.

(** A literal of the development, for examples. *)
Definition js (s : string) : jsstring :=
  (fun a => N.of_nat (nat_of_ascii a)) <$> list_ascii_of_string s.

Definition LF : code_unit := 10%N.

(** [String.prototype.split] with the separator ["\n"]: never empty. *)
Fixpoint split_lf (s : jsstring) : list jsstring :=
  match s with
  | [] => [[]]
  | c :: r =>
      if (c =? LF)%N then [] :: split_lf r
      else match split_lf r with
           | [] => [[c]]
           | h :: t => (c :: h) :: t
           end
  end.

(** WhiteSpace and LineTerminator of ECMAScript, what [trim] strips. *)
Definition is_space (c : code_unit) : bool :=
  ((c =? 9) || (c =? 10) || (c =? 11) || (c =? 12) || (c =? 13) || (c =? 32)
   || (c =? 160) || (c =? 5760) || ((8192 <=? c) && (c <=? 8202))
   || (c =? 8232) || (c =? 8233) || (c =? 8239) || (c =? 8287)
   || (c =? 12288) || (c =? 65279))%N.

Fixpoint trimStart (s : jsstring) : jsstring :=
  match s with
  | c :: r => if is_space c then trimStart r else s
  | [] => []
  end.

Definition trimEnd (s : jsstring) : jsstring := reverse (trimStart (reverse s)).

Definition trim (s : jsstring) : jsstring := trimEnd (trimStart s).

(** Truthiness of a string: the empty string is the only falsy one. *)
Definition truthy (s : jsstring) : bool :=
  match s with [] => false | _ => true end.

(** [Array.prototype.pop]: the last element ([undefined] on an empty array)
    and the array without it. *)
Definition pop {A} (l : list A) : option A * list A := (last l, removelast l).

(** [x || ''] for [x] a string or [undefined]. *)
Definition or_empty (x : option jsstring) : jsstring :=
  match x with
  | Some s => if truthy s then s else []
  | None => []
  end.

(** [Array.prototype.slice(start)] for an integer [start]. *)
Definition slice {A} (start : Z) (l : list A) : list A :=
  let len := Z.of_nat (length l) in
  let k := if start <? 0 then Z.max (len + start) 0 else Z.min start len in
  drop (Z.to_nat k) l.

(** ** The line splitter

    The body of the ['data'] handlers of both [readNewContent] methods
    ([tail.ts] 210-214, [watcher.ts] 138-142):
    [buffer += chunk; lines = buffer.split('\n'); buffer = lines.pop() || '']. *)
Definition split_step (buffer chunk : jsstring) : list jsstring * jsstring :=
  let buffer := buffer ++ chunk in
  let lines := split_lf buffer in
  let '(popped, lines) := pop lines in
  (lines, or_empty popped).

(** Threading the carry-over through a sequence of chunks. *)
Fixpoint split_chunks (buffer : jsstring) (chunks : list jsstring)
  : list jsstring * jsstring :=
  match chunks with
  | [] => ([], buffer)
  | chunk :: rest =>
      let '(lines, buffer) := split_step buffer chunk in
      let '(more, buffer) := split_chunks buffer rest in
      (lines ++ more, buffer)
  end.

(** ** Errors, the file system and read streams *)

Inductive error :=
| Error_ (message : string)         (* [new Error(message)], no [code] *)
| ErrnoException (code : string).   (* an error of Node carrying a [code] *)

Definition error_code (e : error) : option string :=
  match e with
  | Error_ _ => None
  | ErrnoException c => Some c
  end.

(** [fs.statSync(path)]: the [size] of the stats, or the exception thrown. *)
Inductive stat_result :=
| Stats (size : Z)
| StatThrows (e : error).

(** A call [fs.createReadStream(path, {start, end, encoding})]; [end] is
    inclusive, and absent in [readLastLines]. *)
Record request := {
  rq_path : string;
  rq_start : Z;
  rq_end : option Z }.

(** The life of a stream: ['data'] events, then ['end'] or ['error']. *)
Inductive stream_finish :=
| End
| StreamError (e : error).

Record stream_run := {
  chunks : list jsstring;
  finish : stream_finish }.

Record World := {
  resolve : string -> string;
  existsSync : string -> bool;
  statSync : string -> stat_result;
  stream_of : request -> stream_run }.

(** The offsets a request covers. *)
Definition covers (rq : request) (offset : Z) : Prop :=
  rq_start rq <= offset /\
  match rq_end rq with
  | Some e => offset <= e
  | None => True
  end.

(** [fs.createReadStream] checks its range when called and throws a
    [RangeError] with code [ERR_OUT_OF_RANGE] for a negative [start] or [end]
    and for [start > end]; otherwise the stream is opened and runs later. *)
Definition createReadStream (rq : request) : error + request :=
  let bad_end :=
    match rq_end rq with
    | Some e => (e <? 0) || (e <? rq_start rq)
    | None => false
    end in
  if (rq_start rq <? 0) || bad_end
  then inl (ErrnoException "ERR_OUT_OF_RANGE")
  else inr rq.

(** The JavaScript [Map<string, number>] of [LogTailer.files], in insertion
    order, which is the order of iteration. A [Map] holds a key once: the
    lists that stand for one have no key twice, which [map_set] and
    [map_delete] keep. *)
Fixpoint map_get (k : string) (m : list (string * Z)) : option Z :=
  match m with
  | [] => None
  | (k', v') :: r => if decide (k' = k) then Some v' else map_get k r
  end.

Fixpoint map_set (k : string) (v : Z) (m : list (string * Z))
  : list (string * Z) :=
  match m with
  | [] => [(k, v)]
  | (k', v') :: r =>
      if decide (k' = k) then (k, v) :: r else (k', v') :: map_set k v r
  end.

Fixpoint map_delete (k : string) (m : list (string * Z)) : list (string * Z) :=
  match m with
  | [] => []
  | (k', v') :: r => if decide (k' = k) then r else (k', v') :: map_delete k r
  end.

(** ** [src/tail.ts]: the polling driver *)
Module Tail.

Record TailOptions := {
  lines : option Z;
  follow : option bool }.

Record TailEvent := {
  file : string;
  line : jsstring;
  lineNumber : Z }.

(** What [this.emit] is called with. *)
Inductive emitted :=
| Line (event : TailEvent)
| FileRemoved (filePath : string)
| Error (e : error).

Record LogTailer := {
  files : list (string * Z);
  following : bool;
  pollInterval : bool }.   (* whether the interval timer is armed *)

Definition new_LogTailer : LogTailer :=
  {| files := []; following := false; pollInterval := false |}.

Definition set_files (t : LogTailer) (m : list (string * Z)) : LogTailer :=
  {| files := m; following := following t; pollInterval := pollInterval t |}.

(** [readLastLines], lines 115-152. The result is the promise's: resolved
    with the lines or rejected with an error. *)
Definition readLastLines (w : World) (filePath : string) (numLines : Z)
  : error + list jsstring :=
  match statSync w filePath with
  | StatThrows e => inl e
  | Stats fileSize =>
      if fileSize =? 0 then inr []
      else
        let estimatedBytes := Z.min (numLines * 120) fileSize in
        let start := Z.max 0 (fileSize - estimatedBytes) in
        match createReadStream
                {| rq_path := filePath; rq_start := start; rq_end := None |} with
        | inl e => inl e
        | inr rq =>
            let run := stream_of w rq in
            let buffer := concat (chunks run) in
            match finish run with
            | End =>
                let lines :=
                  filter (fun line => trim line <> []) (split_lf buffer) in
                let lastLines := slice (- numLines) lines in
                inr lastLines
            | StreamError e => inl e
            end
        end
  end.

(** The loop of [tail] over [lastLines], lines 48-56. *)
Definition emit_initial (absolutePath : string) (lastLines : list jsstring)
  : list emitted :=
  imap (fun i l =>
          Line {| file := absolutePath; line := l;
                  lineNumber := Z.of_nat i + 1 |}) lastLines.

(** [startFollowing], lines 154-162: (re)arms the interval timer. *)
Definition startFollowing (t : LogTailer) : LogTailer :=
  {| files := files t; following := following t; pollInterval := true |}.

(** [tail], lines 29-70: the tailer afterwards, the events emitted, and
    whether the promise is rejected. *)
Definition tail (w : World) (t : LogTailer) (filePath : string)
    (options : TailOptions) : LogTailer * list emitted * option error :=
  let lines := default 10 (lines options) in
  let follow := default false (follow options) in
  let absolutePath := resolve w filePath in
  let catch (t : LogTailer) (log : list emitted) (e : error) :=
    (t, log ++ [Error e], Some e) in
  if negb (existsSync w absolutePath)
  then catch t [] (Error_ ("File not found: " +:+ absolutePath))
  else
    match readLastLines w absolutePath lines with
    | inl e => catch t [] e
    | inr lastLines =>
        let log := emit_initial absolutePath lastLines in
        match statSync w absolutePath with
        | StatThrows e => catch t log e
        | Stats size =>
            let t := set_files t (map_set absolutePath size (files t)) in
            if follow
            then
              let t := {| files := files t; following := true;
                          pollInterval := pollInterval t |} in
              (startFollowing t, log, None)
            else (t, log, None)
        end
    end.

(** The handlers of [readNewContent], lines 206-243. The state of the
    closure is [buffer] and [lineNumber]. *)
Fixpoint emit_lines (filePath : string) (lineNumber : Z) (lines : list jsstring)
  : Z * list emitted :=
  match lines with
  | [] => (lineNumber, [])
  | line :: rest =>
      if truthy (trim line)
      then
        let lineNumber := lineNumber + 1 in
        let event := {| file := filePath; line := line;
                        lineNumber := lineNumber |} in
        let '(n, log) := emit_lines filePath lineNumber rest in
        (n, Line event :: log)
      else emit_lines filePath lineNumber rest
  end.

Definition onData (filePath : string) (st : jsstring * Z) (chunk : jsstring)
  : (jsstring * Z) * list emitted :=
  let '(buffer, lineNumber) := st in
  let '(lines, buffer) := split_step buffer chunk in
  let '(lineNumber, log) := emit_lines filePath lineNumber lines in
  ((buffer, lineNumber), log).

Definition onEnd (filePath : string) (st : jsstring * Z) : list emitted :=
  let '(buffer, lineNumber) := st in
  if truthy (trim buffer)
  then [Line {| file := filePath; line := buffer;
                lineNumber := lineNumber + 1 |}]
  else [].

Definition onError (e : error) : list emitted := [Error e].

Fixpoint feed (filePath : string) (st : jsstring * Z) (cs : list jsstring)
  : (jsstring * Z) * list emitted :=
  match cs with
  | [] => (st, [])
  | chunk :: rest =>
      let '(st, log) := onData filePath st chunk in
      let '(st, more) := feed filePath st rest in
      (st, log ++ more)
  end.

(** Everything a stream opened by [readNewContent] makes the tailer emit. *)
Definition run_stream (filePath : string) (run : stream_run) : list emitted :=
  let '(st, log) := feed filePath ([], 0) (chunks run) in
  log ++ match finish run with
         | End => onEnd filePath st
         | StreamError e => onError e
         end.

(** The synchronous part of [readNewContent], lines 200-204: the stream is
    opened on the inclusive range [start .. end - 1]. *)
Definition readNewContent (filePath : string) (start end_ : Z)
  : error + request :=
  createReadStream
    {| rq_path := filePath; rq_start := start; rq_end := Some (end_ - 1) |}.

(** The state threaded through [checkForNewContent]: the tailer, the events
    emitted synchronously, the streams opened. *)
Record poll := {
  tailer : LogTailer;
  log : list emitted;
  opened : list request }.

(** The [catch] block, lines 182-190. *)
Definition catch (p : poll) (filePath : string) (e : error) : poll :=
  if decide (error_code e = Some "ENOENT")
  then {| tailer := set_files (tailer p) (map_delete filePath (files (tailer p)));
          log := log p ++ [FileRemoved filePath];
          opened := opened p |}
  else {| tailer := tailer p; log := log p ++ [Error e]; opened := opened p |}.

Definition files_set (p : poll) (filePath : string) (v : Z) : poll :=
  {| tailer := set_files (tailer p) (map_set filePath v (files (tailer p)));
     log := log p; opened := opened p |}.

Definition open (p : poll) (rq : request) : poll :=
  {| tailer := tailer p; log := log p; opened := opened p ++ [rq] |}.

(** One turn of the loop of [checkForNewContent], lines 166-190. *)
Definition check_file (w : World) (p : poll) (entry : string * Z) : poll :=
  let '(filePath, lastPosition) := entry in
  match statSync w filePath with
  | StatThrows e => catch p filePath e
  | Stats currentSize =>
      if currentSize <? lastPosition then
        let p := files_set p filePath 0 in
        match readNewContent filePath 0 currentSize with
        | inl e => catch p filePath e
        | inr rq => open p rq
        end
      else if currentSize >? lastPosition then
        match readNewContent filePath lastPosition currentSize with
        | inl e => catch p filePath e
        | inr rq => files_set (open p rq) filePath currentSize
        end
      else p
  end.

(** [checkForNewContent], lines 164-192. *)
Definition checkForNewContent (w : World) (t : LogTailer) : poll :=
  foldl (check_file w) {| tailer := t; log := []; opened := [] |} (files t).

(** The events of the streams a poll opened, in the order of opening. *)
Definition drain (w : World) (rqs : list request) : list emitted :=
  rqs ≫= (fun rq => run_stream (rq_path rq) (stream_of w rq)).

(** One tick of the interval timer and the streams it started. *)
Definition tick (w : World) (t : LogTailer) : LogTailer * list emitted :=
  let p := checkForNewContent w t in
  (tailer p, log p ++ drain w (opened p)).

(** [getFiles], lines 264-266. *)
Definition getFiles (t : LogTailer) : list string := (files t).*1.

(** [tailMultiple], lines 72-113. Each callback of [filePaths.map] runs up
    to its first [await] at once: the ['error'] of every path that does not
    exist is emitted before anything else, and the executor of every
    [readLastLines] has run by then. What follows the [await], lines 90-104,
    is [resume]; a callback is resumed when its promise is settled. The
    promises that the executor itself settles ([settles_at_once]: [statSync]
    threw, the file is empty, or [createReadStream] threw) resume first, in
    the order of the paths; the others resume as their streams end or fail,
    in an order that the file system decides: it is given as [ended], a
    permutation of [streaming]. No callback rejects. *)
Definition resume (w : World) (lines : Z) (acc : LogTailer * list emitted)
    (absolutePath : string) : LogTailer * list emitted :=
  let '(t, log) := acc in
  match readLastLines w absolutePath lines with
  | inl e => (t, log ++ [Error e])
  | inr lastLines =>
      let log := log ++ emit_initial absolutePath lastLines in
      match statSync w absolutePath with
      | StatThrows e => (t, log ++ [Error e])
      | Stats size => (set_files t (map_set absolutePath size (files t)), log)
      end
  end.

(** Whether the executor of [readLastLines], lines 121-151, settles the
    promise before it returns. *)
Definition settles_at_once (w : World) (filePath : string) (numLines : Z)
  : bool :=
  match statSync w filePath with
  | StatThrows _ => true
  | Stats fileSize =>
      if fileSize =? 0 then true
      else
        let estimatedBytes := Z.min (numLines * 120) fileSize in
        let start := Z.max 0 (fileSize - estimatedBytes) in
        match createReadStream
                {| rq_path := filePath; rq_start := start; rq_end := None |} with
        | inl _ => true
        | inr _ => false
        end
  end.

(** The paths whose callback waits for a stream, in the order of the
    paths. *)
Definition streaming (w : World) (filePaths : list string)
    (options : TailOptions) : list string :=
  filter (fun absolutePath =>
            settles_at_once w absolutePath (default 10 (lines options)) = false)
    (filter (fun absolutePath => existsSync w absolutePath = true)
       (resolve w <$> filePaths)).

Definition tailMultiple (w : World) (t : LogTailer) (filePaths : list string)
    (options : TailOptions) (ended : list string) : LogTailer * list emitted :=
  let lines := default 10 (lines options) in
  let follow := default false (follow options) in
  let absolutePaths := resolve w <$> filePaths in
  let not_found :=
    (fun absolutePath =>
       Error (Error_ ("File not found: " +:+ absolutePath)))
      <$> filter (fun absolutePath => existsSync w absolutePath = false)
            absolutePaths in
  let settled :=
    filter (fun absolutePath => settles_at_once w absolutePath lines = true)
      (filter (fun absolutePath => existsSync w absolutePath = true)
         absolutePaths) in
  let '(t, log) := foldl (resume w lines) (t, not_found) (settled ++ ended) in
  if follow
  then
    let t := {| files := files t; following := true;
                pollInterval := pollInterval t |} in
    (startFollowing t, log)
  else (t, log).

End Tail.

(** ** [src/watcher.ts]: the notification driver *)
Module Watcher.

Inductive change_type := add | change | unlink.

Record FileChange := {
  file : string;
  type : change_type;
  position : option Z }.

Record LineData := {
  line_file : string;
  line : jsstring }.

Inductive emitted :=
| Line (data : LineData)
| FileAdded (c : FileChange)
| Change (c : FileChange)
| FileRemoved (c : FileChange)
| Error (e : error)
| Ready.

(** The calls made on the chokidar [FSWatcher]. *)
Inductive watcher_call :=
| watch (paths : list string)
| watcher_add (path : string)
| unwatch (path : string).

Record LogWatcher := {
  watcher : option (list watcher_call);
  filePositions : gmap string Z;
  files : list string }.

(** The constructor, lines 25-45 (the chokidar options are left out). *)
Definition new_LogWatcher (w : World) (files : list string) : LogWatcher :=
  let files := resolve w <$> files in
  {| watcher := Some [watch files]; filePositions := ∅; files := files |}.

Definition set_filePositions (t : LogWatcher) (m : gmap string Z) : LogWatcher :=
  {| watcher := watcher t; filePositions := m; files := files t |}.

(** [handleFileAdd], lines 68-87. *)
Definition handleFileAdd (w : World) (t : LogWatcher) (filePath : string)
  : LogWatcher * list emitted :=
  let absolutePath := resolve w filePath in
  match statSync w absolutePath with
  | StatThrows e => (t, [Error e])
  | Stats size =>
      let t := set_filePositions t (<[absolutePath := size]> (filePositions t)) in
      let c := {| file := absolutePath; type := add; position := Some size |} in
      (t, [FileAdded c; Change c])
  end.

(** The synchronous part of [readNewContent], lines 129-133. *)
Definition readNewContent (filePath : string) (start end_ : Z)
  : error + request :=
  createReadStream
    {| rq_path := filePath; rq_start := start; rq_end := Some (end_ - 1) |}.

(** [x || 0] for [x] a number or [undefined]. *)
Definition or_zero (x : option Z) : Z := default 0 x.

(** [handleFileChange], lines 89-112: the watcher afterwards, the events
    emitted synchronously, the streams opened. *)
Definition handleFileChange (w : World) (t : LogWatcher) (filePath : string)
  : LogWatcher * list emitted * list request :=
  let absolutePath := resolve w filePath in
  match statSync w absolutePath with
  | StatThrows e => (t, [Error e], [])
  | Stats size =>
      let lastPosition := or_zero (filePositions t !! absolutePath) in
      if size <? lastPosition then
        let t := set_filePositions t (<[absolutePath := 0]> (filePositions t)) in
        match readNewContent absolutePath 0 size with
        | inl e => (t, [Error e], [])
        | inr rq => (t, [], [rq])
        end
      else
        let store (t : LogWatcher) :=
          set_filePositions t (<[absolutePath := size]> (filePositions t)) in
        if size >? lastPosition then
          match readNewContent absolutePath lastPosition size with
          | inl e => (t, [Error e], [])
          | inr rq => (store t, [], [rq])
          end
        else (store t, [], [])
  end.

(** [handleFileRemove], lines 114-126. *)
Definition handleFileRemove (w : World) (t : LogWatcher) (filePath : string)
  : LogWatcher * list emitted :=
  let absolutePath := resolve w filePath in
  let t := set_filePositions t (delete absolutePath (filePositions t)) in
  let c := {| file := absolutePath; type := unlink; position := None |} in
  (t, [FileRemoved c; Change c]).

(** The handlers of [readNewContent], lines 135-168; the closure holds
    [buffer]. *)
Definition emit_lines (filePath : string) (lines : list jsstring)
  : list emitted :=
  lines ≫= (fun line =>
    if truthy (trim line)
    then [Line {| line_file := filePath; line := line |}]
    else []).

Definition onData (filePath : string) (buffer chunk : jsstring)
  : jsstring * list emitted :=
  let '(lines, buffer) := split_step buffer chunk in
  (buffer, emit_lines filePath lines).

Definition onEnd (filePath : string) (buffer : jsstring) : list emitted :=
  if truthy (trim buffer)
  then [Line {| line_file := filePath; line := buffer |}]
  else [].

Definition onError (e : error) : list emitted := [Error e].

Fixpoint feed (filePath : string) (buffer : jsstring) (cs : list jsstring)
  : jsstring * list emitted :=
  match cs with
  | [] => (buffer, [])
  | chunk :: rest =>
      let '(buffer, log) := onData filePath buffer chunk in
      let '(buffer, more) := feed filePath buffer rest in
      (buffer, log ++ more)
  end.

Definition run_stream (filePath : string) (run : stream_run) : list emitted :=
  let '(buffer, log) := feed filePath [] (chunks run) in
  log ++ match finish run with
         | End => onEnd filePath buffer
         | StreamError e => onError e
         end.

Definition drain (w : World) (rqs : list request) : list emitted :=
  rqs ≫= (fun rq => run_stream (rq_path rq) (stream_of w rq)).

(** A ['change'] notice of chokidar and the stream it started. *)
Definition notice (w : World) (t : LogWatcher) (filePath : string)
  : LogWatcher * list emitted :=
  let '(t, log, rqs) := handleFileChange w t filePath in
  (t, log ++ drain w rqs).

(** [Array.prototype.includes] and [indexOf] on strings. *)
Definition includes (x : string) (l : list string) : bool :=
  bool_decide (x ∈ l).

Definition indexOf (x : string) (l : list string) : Z :=
  match list_find (fun y => y = x) l with
  | Some (i, _) => Z.of_nat i
  | None => -1
  end.

(** [splice(index, 1)] for an index in range. *)
Definition splice1 {A} (index : Z) (l : list A) : list A :=
  delete (Z.to_nat index) l.

Definition call (c : watcher_call) (wt : option (list watcher_call))
  : option (list watcher_call) :=
  (fun calls => calls ++ [c]) <$> wt.

(** [addFile], lines 171-177. *)
Definition addFile (w : World) (t : LogWatcher) (filePath : string) : LogWatcher :=
  let absolutePath := resolve w filePath in
  if negb (includes absolutePath (files t))
  then {| watcher := call (watcher_add absolutePath) (watcher t);
          filePositions := filePositions t;
          files := files t ++ [absolutePath] |}
  else t.

(** [removeFile], lines 179-187. *)
Definition removeFile (w : World) (t : LogWatcher) (filePath : string) : LogWatcher :=
  let absolutePath := resolve w filePath in
  let index := indexOf absolutePath (files t) in
  if negb (index =? -1)
  then {| watcher := call (unwatch absolutePath) (watcher t);
          filePositions := delete absolutePath (filePositions t);
          files := splice1 index (files t) |}
  else t.

(** [getFiles], lines 189-191. *)
Definition getFiles (t : LogWatcher) : list string := files t.

End Watcher.

(** ** A file system of ASCII files, for running scenarios

    Every file is shorter than the stream's [highWaterMark], so a stream
    delivers its range as one chunk (and nothing for an empty range); on
    ASCII bytes the UTF-8 decoder is the identity. *)
Definition byte_range (content : list byte) (rq : request) : list byte :=
  let rest := drop (Z.to_nat (rq_start rq)) content in
  match rq_end rq with
  | Some e => take (Z.to_nat (e + 1 - rq_start rq)) rest
  | None => rest
  end.

Definition decode_ascii (bs : list byte) : jsstring :=
  (fun b => N.of_nat (Byte.to_nat b)) <$> bs.

Definition bytes_of (s : string) : list byte := list_byte_of_string s.

Definition disk_world (disk : gmap string (list byte)) : World :=
  {| resolve := fun p => p;
     existsSync := fun p => bool_decide (is_Some (disk !! p));
     statSync := fun p =>
       match disk !! p with
       | Some content => Stats (Z.of_nat (length content))
       | None => StatThrows (ErrnoException "ENOENT")
       end;
     stream_of := fun rq =>
       match disk !! rq_path rq with
       | Some content =>
           let bs := byte_range content rq in
           {| chunks := if decide (bs = []) then [] else [decode_ascii bs];
              finish := End |}
       | None =>
           {| chunks := []; finish := StreamError (ErrnoException "ENOENT") |}
       end |}.

(** ** The class [Dashboard] (second part of [src/cli.ts]): its buffer

    The ['line'] handler of [setupWatcher] keeps the lines that pass the
    filter in [logBuffer]; the entry built from the line is a parameter, and
    the broadcast to the clients is left out. *)
Module Dashboard.

Definition maxBufferSize : nat := 1000.

(** [logBuffer.push(logEntry); if (logBuffer.length > maxBufferSize)
    logBuffer.shift()]. *)
Definition record {A} (logBuffer : list A) (logEntry : A) : list A :=
  let logBuffer := logBuffer ++ [logEntry] in
  if (maxBufferSize <? length logBuffer)%nat
  then drop 1 logBuffer
  else logBuffer.

(** The handler, given what [shouldInclude] answered. *)
Definition on_line {A} (shouldInclude : bool) (logBuffer : list A)
    (logEntry : A) : list A :=
  if negb shouldInclude then logBuffer else record logBuffer logEntry.

(** The route [/api/logs]: [parseInt(req.query.limit) || 100], where [None]
    stands for [NaN], then [logBuffer.slice(-limit)]. *)
Definition api_logs {A} (parsed_limit : option Z) (logBuffer : list A)
  : list A :=
  let limit :=
    match parsed_limit with
    | Some l => if l =? 0 then 100 else l
    | None => 100
    end in
  slice (- limit) logBuffer.

End Dashboard.

(** ** [src/filters.ts]: the functions without a regular expression engine *)
Module Filters.

(** The class [[.*+?^${}()|[\]\\]] of [escapeRegex]. *)
Definition special (c : code_unit) : bool :=
  ((c =? 46) || (c =? 42) || (c =? 43) || (c =? 63) || (c =? 94) || (c =? 36)
   || (c =? 123) || (c =? 125) || (c =? 40) || (c =? 41) || (c =? 124)
   || (c =? 91) || (c =? 93) || (c =? 92))%N.

Definition backslash : code_unit := 92%N.

(** [escapeRegex], lines 50-52: every match of the class is replaced by a
    backslash and the match. *)
Definition escapeRegex (str : jsstring) : jsstring :=
  str ≫= (fun c => if special c then [backslash; c] else [c]).

(** The tests [detectLogFormat] makes on a line: whether [JSON.parse]
    returns, and the three regular expressions. *)
Record line_tests := {
  json_parses : jsstring -> bool;
  apache_like : jsstring -> bool;
  nginx_like : jsstring -> bool;
  syslog_like : jsstring -> bool }.

(** [formats[key]++] on an object whose keys keep their order. *)
Definition incr (key : string) (formats : list (string * Z))
  : list (string * Z) :=
  map_set key (default 0 (map_get key formats) + 1) formats.

(** The body of the loop, lines 180-197. *)
Definition count_line (tests : line_tests) (formats : list (string * Z))
    (line : jsstring) : list (string * Z) :=
  let formats := if json_parses tests line then incr "json" formats else formats in
  let formats := if apache_like tests line then incr "apache" formats else formats in
  let formats := if nginx_like tests line then incr "nginx" formats else formats in
  let formats := if syslog_like tests line then incr "syslog" formats else formats in
  incr "generic" formats.

(** [Array.prototype.reduce] without an initial value: a [TypeError] on an
    empty array. *)
Definition reduce {A} (f : A -> A -> A) (l : list A) : option A :=
  match l with
  | [] => None
  | a :: rest => Some (foldl f a rest)
  end.

(** [detectLogFormat], lines 170-203. *)
Definition detectLogFormat (tests : line_tests) (lines : list jsstring)
  : option string :=
  let formats :=
    [("json", 0); ("apache", 0); ("nginx", 0); ("syslog", 0); ("generic", 0)] in
  let formats := foldl (count_line tests) formats (take 10 lines) in
  reduce (fun a b =>
            if default 0 (map_get a formats) >? default 0 (map_get b formats)
            then a else b)
         formats.*1.

End Filters.

(** ** Notions used in the statements *)

(** The ASCII line feed, to write file contents. *)
Definition lf : string := String "010" "".

(** A string of whitespace only (the empty string included). *)
Definition blank (s : jsstring) : bool := forallb is_space s.

(** The fragments of [s] before its last line feed, and the one after. *)
Definition complete_lines (s : jsstring) : list jsstring := removelast (split_lf s).
Definition trailing (s : jsstring) : jsstring := default [] (last (split_lf s)).

(** Putting terminated lines back together. *)
Definition unlines (ls : list jsstring) : jsstring := ls ≫= (fun l => l ++ [LF]).

(** The text of the ['line'] events of a log. *)
Definition tail_lines (log : list Tail.emitted) : list jsstring :=
  omap (fun ev => match ev with
                  | Tail.Line e => Some (Tail.line e)
                  | _ => None
                  end) log.

Definition watcher_lines (log : list Watcher.emitted) : list jsstring :=
  omap (fun ev => match ev with
                  | Watcher.Line d => Some (Watcher.line d)
                  | _ => None
                  end) log.

(** What "split into line events" asks of the text a stream delivered: the
    text cut at its line feeds, the piece after the last line feed counted
    when the stream ended, the blank pieces left out. Written from the words
    of the specification, with no handler of the drivers in it. *)
Definition delivered_lines (run : stream_run) : list jsstring :=
  let text := concat (chunks run) in
  filter (fun l => blank l = false)
    (complete_lines text ++
     match finish run with
     | End => [trailing text]
     | StreamError _ => []
     end).

(** One ['line'] event per line, as each driver shapes it; the tailer
    numbers them from 1. *)
Definition tail_line_events (f : string) (ls : list jsstring)
  : list Tail.emitted :=
  imap (fun i l => Tail.Line {| Tail.file := f; Tail.line := l;
                                Tail.lineNumber := Z.of_nat i + 1 |}) ls.

Definition watcher_line_events (f : string) (ls : list jsstring)
  : list Watcher.emitted :=
  (fun l => Watcher.Line {| Watcher.line_file := f; Watcher.line := l |})
    <$> ls.

(** The numbers of the ['line'] events of a log. *)
Definition tail_line_numbers (log : list Tail.emitted) : list Z :=
  omap (fun ev => match ev with
                  | Tail.Line e => Some (Tail.lineNumber e)
                  | _ => None
                  end) log.

(** The numbers 1 to [k]. *)
Definition one_to (k : nat) : list Z := (fun i => Z.of_nat i + 1) <$> seq 0 k.

(** A string in which every character of the class of [escapeRegex] stands
    right behind a backslash that escapes it, and every backslash escapes
    the character of the class that follows it. *)
Fixpoint well_escaped (s : jsstring) : bool :=
  match s with
  | [] => true
  | c :: r =>
      if (c =? Filters.backslash)%N
      then match r with
           | d :: r' => Filters.special d && well_escaped r'
           | [] => false
           end
      else negb (Filters.special c) && well_escaped r
  end.

(** Taking the escaping backslashes out again. *)
Fixpoint unescape (s : jsstring) : jsstring :=
  match s with
  | [] => []
  | c :: r =>
      if (c =? Filters.backslash)%N
      then match r with
           | d :: r' => d :: unescape r'
           | [] => []
           end
      else c :: unescape r
  end.

(** The object [formats] of [detectLogFormat] with its five counts. *)
Definition counted (a b c d g : Z) : list (string * Z) :=
  [("json", a); ("apache", b); ("nginx", c); ("syslog", d); ("generic", g)].

(** [statSync] throws an error with the code [ENOENT]. *)
Definition stat_enoent (w : World) (f : string) : bool :=
  match statSync w f with
  | StatThrows e => bool_decide (error_code e = Some "ENOENT")
  | Stats _ => false
  end.

(** The file an event of the tailer is about; an ['error'] names none. *)
Definition tail_event_file (ev : Tail.emitted) : option string :=
  match ev with
  | Tail.Line e => Some (Tail.file e)
  | Tail.FileRemoved f => Some f
  | Tail.Error _ => None
  end.

Definition tail_events_of (f : string) (log : list Tail.emitted)
  : list Tail.emitted :=
  filter (fun ev => tail_event_file ev = Some f) log.

Definition requests_of (f : string) (rqs : list request) : list request :=
  filter (fun rq => rq_path rq = f) rqs.

(** What a poll shows of the file [f]: its cursor, the events that name it,
    the streams opened on it. *)
Definition view_eq (f : string) (p q : Tail.poll) : Prop :=
  map_get f (Tail.files (Tail.tailer p)) = map_get f (Tail.files (Tail.tailer q)) /\
  tail_events_of f (Tail.log p) = tail_events_of f (Tail.log q) /\
  requests_of f (Tail.opened p) = requests_of f (Tail.opened q).

(** ** Scenarios: one file [app.log], tracked by either driver *)

Definition app_log : string := "app.log".

Definition disk_with (content : list byte) : World :=
  disk_world {[ app_log := content ]}.

(** [app.log] with one line next to the empty file [empty.log]. *)
Definition two_files : World :=
  disk_world {[ app_log := bytes_of ("a" +:+ lf); "empty.log" := [] ]}.

Definition tailer_at (pos : Z) : Tail.LogTailer :=
  {| Tail.files := [(app_log, pos)]; Tail.following := true;
     Tail.pollInterval := true |}.

Definition watcher_at (pos : Z) : Watcher.LogWatcher :=
  {| Watcher.watcher := Some [Watcher.watch [app_log]];
     Watcher.filePositions := {[ app_log := pos ]};
     Watcher.files := [app_log] |}.

(** A first line of 300 letters [a], then the line [last]: 306 bytes. *)
Definition long_first_line : list byte :=
  replicate 300 "a"%byte ++ bytes_of (lf +:+ "last" +:+ lf).

(** 500 bytes already seen, then two new lines: 620 bytes. *)
Definition grown_log : list byte :=
  replicate 499 "o"%byte ++ bytes_of lf ++
  bytes_of ("error: disk full" +:+ lf) ++ replicate 102 "n"%byte ++ bytes_of lf.

(** The file after a rotation: two lines, 80 bytes. *)
Definition rotated_log : list byte :=
  bytes_of ("fresh start" +:+ lf) ++ replicate 67 "r"%byte ++ bytes_of lf.

(** A file of [size] bytes whose streams fail with [e] after one chunk. *)
Definition failing_disk (size : Z) (e : error) : World :=
  {| resolve := fun p => p;
     existsSync := fun _ => true;
     statSync := fun _ => Stats size;
     stream_of := fun _ => {| chunks := [js "par"]; finish := StreamError e |} |}.

(** A file system where [statSync] throws [e] on every path. *)
Definition unreadable_disk (e : error) : World :=
  {| resolve := fun p => p;
     existsSync := fun _ => true;
     statSync := fun _ => StatThrows e;
     stream_of := fun _ => {| chunks := []; finish := StreamError e |} |}.

Definition chunked (cs : list jsstring) : stream_run :=
  {| chunks := cs; finish := End |}.

(** ** The line splitter: lemmas *)

Lemma pop_snoc {A} (l : list A) (x : A) : pop (l ++ [x]) = (Some x, l).
Proof.
  unfold pop. by rewrite last_snoc, removelast_last.
Qed.

Lemma pop_inv {A} (h : A) (t : list A) :
  exists x l, h :: t = l ++ [x] /\ pop (h :: t) = (Some x, l).
Proof.
  destruct (last (h :: t)) as [x|] eqn:L; [|by apply last_None in L].
  apply last_Some in L as [l E]. exists x, l. by rewrite E, pop_snoc.
Qed.

Lemma split_lf_cons_inv s : exists h t, split_lf s = h :: t.
Proof.
  induction s as [|c r [h [t E]]]; simpl; [by eexists _, _|].
  destruct (c =? LF)%N; [by eexists _, _|]. rewrite E. by eexists _, _.
Qed.

Lemma complete_lines_cons c r :
  complete_lines (c :: r) =
    if (c =? LF)%N then [] :: complete_lines r
    else match complete_lines r with
         | [] => []
         | h :: t => (c :: h) :: t
         end.
Proof.
  unfold complete_lines. simpl. destruct (split_lf_cons_inv r) as [h [t E]].
  rewrite E. destruct (c =? LF)%N; [done|]. by destruct t.
Qed.

Lemma trailing_cons c r :
  trailing (c :: r) =
    if (c =? LF)%N then trailing r
    else match complete_lines r with
         | [] => c :: trailing r
         | _ => trailing r
         end.
Proof.
  unfold trailing, complete_lines. simpl.
  destruct (split_lf_cons_inv r) as [h [t E]]. rewrite E.
  destruct (c =? LF)%N.
  - by rewrite last_cons; destruct (last (h :: t)) eqn:L;
      [|by rewrite last_None in L].
  - destruct t as [|h' t]; [done|].
    change (last ((c :: h) :: h' :: t)) with (last (h' :: t)).
    by change (last (h :: h' :: t)) with (last (h' :: t)).
Qed.

Lemma split_lf_snoc s : split_lf s = complete_lines s ++ [trailing s].
Proof.
  unfold complete_lines, trailing.
  destruct (split_lf_cons_inv s) as [h [t E]]. rewrite E.
  destruct (pop_inv h t) as [x [l [E' _]]].
  by rewrite E', last_snoc, removelast_last.
Qed.

Lemma split_lf_app a b :
  split_lf (a ++ b) = complete_lines a ++ split_lf (trailing a ++ b).
Proof.
  induction a as [|c r IH]; [done|].
  rewrite complete_lines_cons, trailing_cons. simpl. rewrite IH.
  destruct (c =? LF)%N eqn:E; [done|].
  destruct (complete_lines r) as [|h t]; simpl; [|done]. by rewrite E.
Qed.

Lemma split_lf_no_lf s : Forall (fun l => LF ∉ l) (split_lf s).
Proof.
  induction s as [|c r IH]; simpl.
  - repeat constructor. by intros ?%elem_of_nil.
  - destruct (c =? LF)%N eqn:E.
    + constructor; [by intros ?%elem_of_nil | done].
    + assert (c <> LF) as Hc by (by apply N.eqb_neq).
      destruct (split_lf_cons_inv r) as [h [t Er]]. rewrite Er in *.
      apply Forall_cons in IH as [Hh Ht]. constructor; [|done].
      intros [?|?]%elem_of_cons; [by apply Hc | by apply Hh].
Qed.

Lemma split_lf_whole s : LF ∉ s -> split_lf s = [s].
Proof.
  induction s as [|c r IH]; [done|]. intros H. simpl.
  destruct (c =? LF)%N eqn:E.
  - apply N.eqb_eq in E as ->. exfalso. apply H. by left.
  - rewrite IH; [done|]. intros ?. apply H. by right.
Qed.

Lemma trailing_no_lf s : LF ∉ trailing s.
Proof.
  pose proof (split_lf_no_lf s) as H. rewrite split_lf_snoc in H.
  apply Forall_app in H as [_ H]. by inversion H.
Qed.

Lemma complete_lines_no_lf s : Forall (fun l => LF ∉ l) (complete_lines s).
Proof.
  pose proof (split_lf_no_lf s) as H. rewrite split_lf_snoc in H.
  by apply Forall_app in H as [H _].
Qed.

Lemma unlines_split s : unlines (complete_lines s) ++ trailing s = s.
Proof.
  induction s as [|c r IH]; [done|].
  rewrite complete_lines_cons, trailing_cons.
  destruct (c =? LF)%N eqn:E.
  - apply N.eqb_eq in E as ->. simpl. by rewrite IH.
  - destruct (complete_lines r) as [|h t]; simpl in *; by rewrite IH.
Qed.

Lemma or_empty_some s : or_empty (Some s) = s.
Proof. by destruct s. Qed.

Lemma split_step_eq buffer chunk :
  split_step buffer chunk =
    (complete_lines (buffer ++ chunk), trailing (buffer ++ chunk)).
Proof.
  unfold split_step. rewrite split_lf_snoc, pop_snoc. by rewrite or_empty_some.
Qed.

Lemma complete_lines_app a b :
  complete_lines (a ++ b) = complete_lines a ++ complete_lines (trailing a ++ b).
Proof.
  unfold complete_lines at 1. rewrite split_lf_app.
  rewrite (split_lf_snoc (trailing a ++ b)), app_assoc.
  by rewrite removelast_last.
Qed.

Lemma trailing_app a b : trailing (a ++ b) = trailing (trailing a ++ b).
Proof.
  unfold trailing at 1. rewrite split_lf_app.
  rewrite (split_lf_snoc (trailing a ++ b)), app_assoc.
  by rewrite last_snoc.
Qed.

Lemma split_chunks_eq buffer cs :
  LF ∉ buffer ->
  split_chunks buffer cs =
    (complete_lines (buffer ++ concat cs), trailing (buffer ++ concat cs)).
Proof.
  revert buffer. induction cs as [|c cs IH]; intros buffer H.
  - simpl. rewrite app_nil_r. unfold complete_lines, trailing.
    by rewrite split_lf_whole.
  - cbn [split_chunks concat]. rewrite split_step_eq.
    rewrite IH by apply trailing_no_lf.
    rewrite (app_assoc buffer c).
    by rewrite (complete_lines_app (buffer ++ c)), (trailing_app (buffer ++ c)).
Qed.

(** ** [trim] and blank strings *)

Lemma trimStart_nil s : trimStart s = [] <-> blank s = true.
Proof.
  induction s as [|c r IH]; simpl; [done|].
  destruct (is_space c); simpl; [done | by split].
Qed.

Lemma trimStart_blank s : blank (trimStart s) = true -> trimStart s = [].
Proof.
  induction s as [|c r IH]; simpl; [done|].
  destruct (is_space c) eqn:E; [done|]. simpl. by rewrite E.
Qed.

Lemma blank_reverse s : blank (reverse s) = blank s.
Proof.
  unfold blank. apply eq_true_iff_eq.
  rewrite !forallb_forall. setoid_rewrite <- list_elem_of_In.
  by setoid_rewrite elem_of_reverse.
Qed.

Lemma trim_nil s : trim s = [] <-> blank s = true.
Proof.
  unfold trim, trimEnd. rewrite <- trimStart_nil. split.
  - intros H. apply (f_equal reverse) in H. rewrite reverse_involutive in H.
    apply trimStart_nil in H. rewrite blank_reverse in H.
    by apply trimStart_blank.
  - by intros ->.
Qed.

Lemma truthy_trim s : truthy (trim s) = negb (blank s).
Proof.
  destruct (blank s) eqn:E.
  - apply trim_nil in E. by rewrite E.
  - destruct (trim s) eqn:T; [|done]. apply trim_nil in T. congruence.
Qed.

(** ** The stream handlers of the two drivers *)

Lemma tail_emit_lines_app f n l1 l2 :
  Tail.emit_lines f n (l1 ++ l2) =
    (fst (Tail.emit_lines f (fst (Tail.emit_lines f n l1)) l2),
     snd (Tail.emit_lines f n l1) ++
     snd (Tail.emit_lines f (fst (Tail.emit_lines f n l1)) l2)).
Proof.
  revert n. induction l1 as [|l l1 IH]; intros n; simpl.
  - by destruct (Tail.emit_lines f n l2).
  - destruct (truthy (trim l)); [|done]. rewrite IH.
    by destruct (Tail.emit_lines f (n + 1) l1).
Qed.

Lemma tail_feed_eq f buffer n cs :
  Tail.feed f (buffer, n) cs =
    (snd (split_chunks buffer cs),
     fst (Tail.emit_lines f n (fst (split_chunks buffer cs))),
     snd (Tail.emit_lines f n (fst (split_chunks buffer cs)))).
Proof.
  revert buffer n. induction cs as [|c cs IH]; intros buffer n; [done|].
  cbn [Tail.feed split_chunks]. unfold Tail.onData.
  destruct (split_step buffer c) as [lines b1].
  destruct (Tail.emit_lines f n lines) as [n1 log1] eqn:E1.
  rewrite IH. destruct (split_chunks b1 cs) as [more b2]. simpl.
  by rewrite tail_emit_lines_app, E1.
Qed.

Lemma watcher_emit_lines_app f l1 l2 :
  Watcher.emit_lines f (l1 ++ l2) =
    Watcher.emit_lines f l1 ++ Watcher.emit_lines f l2.
Proof. unfold Watcher.emit_lines. apply bind_app. Qed.

Lemma watcher_feed_eq f buffer cs :
  Watcher.feed f buffer cs =
    (snd (split_chunks buffer cs),
     Watcher.emit_lines f (fst (split_chunks buffer cs))).
Proof.
  revert buffer. induction cs as [|c cs IH]; intros buffer; [done|].
  cbn [Watcher.feed split_chunks]. unfold Watcher.onData.
  destruct (split_step buffer c) as [lines b1].
  rewrite IH. destruct (split_chunks b1 cs) as [more b2]. simpl.
  by rewrite watcher_emit_lines_app.
Qed.

Lemma split_chunks_nil cs :
  split_chunks [] cs =
    (complete_lines (concat cs), trailing (concat cs)).
Proof. by rewrite split_chunks_eq by (by intros ?%elem_of_nil). Qed.

(** What a stream of [readNewContent] emits, in terms of the whole text it
    delivered. *)
Lemma tail_run_stream_eq f run :
  Tail.run_stream f run =
    let s := concat (chunks run) in
    let out := Tail.emit_lines f 0 (complete_lines s) in
    snd out ++
    match finish run with
    | End =>
        if blank (trailing s) then []
        else [Tail.Line {| Tail.file := f; Tail.line := trailing s;
                           Tail.lineNumber := fst out + 1 |}]
    | StreamError e => [Tail.Error e]
    end.
Proof.
  unfold Tail.run_stream. rewrite tail_feed_eq, split_chunks_nil. simpl.
  f_equal. destruct (finish run); [|done].
  rewrite truthy_trim. by destruct (blank _).
Qed.

Lemma watcher_run_stream_eq f run :
  Watcher.run_stream f run =
    let s := concat (chunks run) in
    Watcher.emit_lines f (complete_lines s) ++
    match finish run with
    | End =>
        if blank (trailing s) then []
        else [Watcher.Line {| Watcher.line_file := f;
                              Watcher.line := trailing s |}]
    | StreamError e => [Watcher.Error e]
    end.
Proof.
  unfold Watcher.run_stream. rewrite watcher_feed_eq, split_chunks_nil. simpl.
  f_equal. destruct (finish run); [|done]. unfold Watcher.onEnd.
  rewrite truthy_trim. by destruct (blank _).
Qed.

Lemma tail_lines_app l1 l2 : tail_lines (l1 ++ l2) = tail_lines l1 ++ tail_lines l2.
Proof. apply omap_app. Qed.

Lemma watcher_lines_app l1 l2 :
  watcher_lines (l1 ++ l2) = watcher_lines l1 ++ watcher_lines l2.
Proof. apply omap_app. Qed.

Lemma tail_lines_emit f n ls :
  tail_lines (snd (Tail.emit_lines f n ls)) = filter (fun l => blank l = false) ls.
Proof.
  revert n. induction ls as [|l ls IH]; intros n; [done|]. simpl.
  rewrite truthy_trim, filter_cons. destruct (blank l); simpl.
  - apply IH.
  - specialize (IH (n + 1)).
    destruct (Tail.emit_lines f (n + 1) ls). simpl in *. by rewrite <- IH.
Qed.

Lemma watcher_lines_emit f ls :
  watcher_lines (Watcher.emit_lines f ls) = filter (fun l => blank l = false) ls.
Proof.
  induction ls as [|l ls IH]; [done|].
  change (l :: ls) with ([l] ++ ls).
  rewrite watcher_emit_lines_app, watcher_lines_app, filter_app, IH. f_equal.
  unfold Watcher.emit_lines. simpl. rewrite truthy_trim, filter_cons.
  by destruct (blank l).
Qed.

Lemma tail_lines_run_stream f run :
  tail_lines (Tail.run_stream f run) =
    filter (fun l => blank l = false)
      (complete_lines (concat (chunks run)) ++
       match finish run with
       | End => [trailing (concat (chunks run))]
       | StreamError _ => []
       end).
Proof.
  rewrite tail_run_stream_eq. cbv zeta.
  rewrite tail_lines_app, tail_lines_emit, filter_app. f_equal.
  destruct (finish run); [|done]. rewrite filter_cons.
  by destruct (blank _).
Qed.

Lemma watcher_lines_run_stream f run :
  watcher_lines (Watcher.run_stream f run) =
    filter (fun l => blank l = false)
      (complete_lines (concat (chunks run)) ++
       match finish run with
       | End => [trailing (concat (chunks run))]
       | StreamError _ => []
       end).
Proof.
  rewrite watcher_run_stream_eq. cbv zeta.
  rewrite watcher_lines_app, watcher_lines_emit, filter_app. f_equal.
  destruct (finish run); [|done]. rewrite filter_cons.
  by destruct (blank _).
Qed.

(** ** Chunk boundaries *)

(** C3. Feeding the chunks one by one with the carry-over threaded, from an
    empty carry-over, extracts the same complete lines and leaves the same
    carry-over as one call on the concatenated chunks; the lines and the
    carry-over hold no line feed, and the lines, each with its line feed,
    followed by the carry-over are the concatenation: the carry-over is what
    follows its last line feed. The ['data'] handlers of both drivers, run
    over the chunks, end with that carry-over in [buffer] and have emitted
    the non-blank ones of those lines. *)
Theorem split_chunks_concat (cs : list jsstring) :
  split_chunks [] cs = split_step [] (concat cs) /\
  Forall (fun l => LF ∉ l) (fst (split_chunks [] cs)) /\
  (LF ∉ snd (split_chunks [] cs)) /\
  unlines (fst (split_chunks [] cs)) ++ snd (split_chunks [] cs) = concat cs /\
  (forall f,
     fst (fst (Tail.feed f ([], 0) cs)) = snd (split_step [] (concat cs)) /\
     tail_lines (snd (Tail.feed f ([], 0) cs)) =
       filter (fun l => blank l = false) (fst (split_step [] (concat cs)))) /\
  (forall f,
     fst (Watcher.feed f [] cs) = snd (split_step [] (concat cs)) /\
     watcher_lines (snd (Watcher.feed f [] cs)) =
       filter (fun l => blank l = false) (fst (split_step [] (concat cs)))).
Proof.
  rewrite split_step_eq, split_chunks_nil. simpl.
  split_and!; [done | | | | |].
  - apply complete_lines_no_lf.
  - apply trailing_no_lf.
  - apply unlines_split.
  - intros f. rewrite tail_feed_eq, split_chunks_nil. simpl.
    by rewrite tail_lines_emit.
  - intros f. rewrite watcher_feed_eq, split_chunks_nil. simpl.
    by rewrite watcher_lines_emit.
Qed.

(** ** End of range *)

(** C1 does not hold as stated. The file [app.log] holds the four bytes
    [a], line feed, [b], [c]; the tailer's cursor is 0. One tick reads
    [0, 4): the splitter leaves the carry-over [bc], which no line feed
    completes, and the ['end'] handler emits it as the line event number 2.
    The watcher does the same on a change notice. *)
Lemma carry_over_emitted_at_end_of_range :
  Tail.opened
    (Tail.checkForNewContent (disk_with (bytes_of ("a" +:+ lf +:+ "bc")))
       (tailer_at 0)) =
    [{| rq_path := app_log; rq_start := 0; rq_end := Some 3 |}] /\
  split_chunks [] [js ("a" +:+ lf +:+ "bc")] = ([js "a"], js "bc") /\
  snd (Tail.tick (disk_with (bytes_of ("a" +:+ lf +:+ "bc"))) (tailer_at 0)) =
    [Tail.Line {| Tail.file := app_log; Tail.line := js "a";
                  Tail.lineNumber := 1 |};
     Tail.Line {| Tail.file := app_log; Tail.line := js "bc";
                  Tail.lineNumber := 2 |}] /\
  snd (Watcher.notice (disk_with (bytes_of ("a" +:+ lf +:+ "bc")))
         (watcher_at 0) app_log) =
    [Watcher.Line {| Watcher.line_file := app_log; Watcher.line := js "a" |};
     Watcher.Line {| Watcher.line_file := app_log; Watcher.line := js "bc" |}].
Proof. by vm_compute. Qed.

(** C1, amended. When a delta read reaches the end of its range, the line
    events are, in order, the non-blank completed lines of the range followed
    by the carry-over when it is not blank: the ['end'] handler emits the
    trailing fragment as a last line, numbered after the others by the
    tailer. This holds for both drivers and whatever the chunking. *)
Theorem carry_over_flushed_at_end (f : string) (run : stream_run) :
  finish run = End ->
  let s := concat (chunks run) in
  let out := Tail.emit_lines f 0 (complete_lines s) in
  Tail.run_stream f run =
    snd out ++
    (if blank (trailing s) then []
     else [Tail.Line {| Tail.file := f; Tail.line := trailing s;
                        Tail.lineNumber := fst out + 1 |}]) /\
  Watcher.run_stream f run =
    Watcher.emit_lines f (complete_lines s) ++
    (if blank (trailing s) then []
     else [Watcher.Line {| Watcher.line_file := f;
                           Watcher.line := trailing s |}]) /\
  tail_lines (Tail.run_stream f run) =
    filter (fun l => blank l = false) (complete_lines s ++ [trailing s]) /\
  watcher_lines (Watcher.run_stream f run) =
    filter (fun l => blank l = false) (complete_lines s ++ [trailing s]).
Proof.
  intros E. cbv zeta.
  rewrite tail_lines_run_stream, watcher_lines_run_stream.
  rewrite tail_run_stream_eq, watcher_run_stream_eq. cbv zeta.
  by rewrite E.
Qed.

Lemma carry_over_flushed_at_end_witness :
  finish (chunked [js "par"; js ("tial" +:+ lf +:+ " " +:+ lf +:+ "re");
                   js "st"]) = End /\
  tail_lines
    (Tail.run_stream app_log
       (chunked [js "par"; js ("tial" +:+ lf +:+ " " +:+ lf +:+ "re");
                 js "st"])) = [js "partial"; js "rest"] /\
  watcher_lines
    (Watcher.run_stream app_log
       (chunked [js "par"; js ("tial" +:+ lf +:+ " " +:+ lf +:+ "re");
                 js "st"])) = [js "partial"; js "rest"].
Proof.
  split; [reflexivity|].
  destruct (carry_over_flushed_at_end app_log
              (chunked [js "par"; js ("tial" +:+ lf +:+ " " +:+ lf +:+ "re");
                        js "st"]) eq_refl)
    as (_ & _ & Ht & Hw).
  split; [rewrite Ht | rewrite Hw]; reflexivity.
Defined.

(** ** The initial window *)

Lemma filter_trim (ls : list jsstring) :
  filter (fun l => trim l <> []) ls = filter (fun l => blank l = false) ls.
Proof.
  apply list_filter_iff. intros l. rewrite trim_nil. by destruct (blank l).
Qed.

Lemma readLastLines_eq w f n :
  Tail.readLastLines w f n =
    match statSync w f with
    | StatThrows e => inl e
    | Stats size =>
        if size =? 0 then inr []
        else
          let run :=
            stream_of w {| rq_path := f;
                           rq_start := Z.max 0 (size - Z.min (n * 120) size);
                           rq_end := None |} in
          match finish run with
          | End =>
              inr (slice (- n)
                     (filter (fun l => blank l = false)
                        (split_lf (concat (chunks run)))))
          | StreamError e => inl e
          end
    end.
Proof.
  unfold Tail.readLastLines. destruct (statSync w f) as [size|e]; [|done].
  destruct (size =? 0); [done|]. unfold createReadStream. cbn [rq_start rq_end].
  rewrite orb_false_r.
  assert ((Z.max 0 (size - Z.min (n * 120) size) <? 0) = false) as ->
    by (apply Z.ltb_ge; lia).
  cbv zeta. destruct (finish _); [|done]. by rewrite filter_trim.
Qed.

Lemma Forall_slice {A} (P : A -> Prop) k (l : list A) :
  Forall P l -> Forall P (slice k l).
Proof. unfold slice. apply Forall_drop. Qed.

Lemma Forall_filter_blank (ls : list jsstring) :
  Forall (fun l => blank l = false) (filter (fun l => blank l = false) ls).
Proof. apply Forall_forall. by intros l [? _]%list_elem_of_filter. Qed.

Lemma readLastLines_not_blank w f n ls :
  Tail.readLastLines w f n = inr ls -> Forall (fun l => blank l = false) ls.
Proof.
  rewrite readLastLines_eq. destruct (statSync w f) as [size|e]; [|done].
  destruct (size =? 0); [by intros [= <-]|]. cbv zeta.
  destruct (finish _); [|done]. intros [= <-].
  apply Forall_slice, Forall_filter_blank.
Qed.

Lemma tail_lines_numbered f (g : nat -> Z) ls :
  tail_lines
    (imap (fun i l => Tail.Line {| Tail.file := f; Tail.line := l;
                                   Tail.lineNumber := g i |}) ls) = ls.
Proof.
  revert g. induction ls as [|l ls IH]; intros g; [done|].
  rewrite imap_cons. simpl. f_equal. apply (IH (g ∘ S)).
Qed.

Lemma tail_lines_emit_initial f ls : tail_lines (Tail.emit_initial f ls) = ls.
Proof. apply (tail_lines_numbered f (fun i => Z.of_nat i + 1)). Qed.

(** ** Blank lines *)

(** C9. A line of whitespace only, or empty, gets no line event. The
    ['data'] handler of either driver emits exactly the non-blank lines the
    splitter produced, in order; no line event of a delta read (the flush at
    the end included) is blank; no line returned by [readLastLines], and no
    line event emitted by [tail] for the initial window, is blank. *)
Theorem blank_lines_dropped :
  (forall f n ls,
     tail_lines (snd (Tail.emit_lines f n ls)) =
       filter (fun l => blank l = false) ls) /\
  (forall f ls,
     watcher_lines (Watcher.emit_lines f ls) =
       filter (fun l => blank l = false) ls) /\
  (forall f run,
     Forall (fun l => blank l = false) (tail_lines (Tail.run_stream f run))) /\
  (forall f run,
     Forall (fun l => blank l = false)
       (watcher_lines (Watcher.run_stream f run))) /\
  (forall w f n,
     Forall (fun l => blank l = false)
       (match Tail.readLastLines w f n with inr ls => ls | inl _ => [] end)) /\
  (forall w t f o,
     Forall (fun l => blank l = false)
       (tail_lines (snd (fst (Tail.tail w t f o))))).
Proof.
  split_and!.
  - apply tail_lines_emit.
  - apply watcher_lines_emit.
  - intros. rewrite tail_lines_run_stream. apply Forall_filter_blank.
  - intros. rewrite watcher_lines_run_stream. apply Forall_filter_blank.
  - intros. destruct (Tail.readLastLines w f n) eqn:E; [done|].
    by eapply readLastLines_not_blank.
  - intros. unfold Tail.tail. destruct (existsSync _ _); simpl; [|done].
    destruct (Tail.readLastLines _ _ _) as [e|ls] eqn:E; [done|].
    apply readLastLines_not_blank in E.
    destruct (statSync _ _); [destruct (default false _)|]; simpl;
      rewrite ?tail_lines_app, ?tail_lines_emit_initial, ?app_nil_r; done.
Qed.

Lemma slice_last_length {A} (n : Z) (l : list A) :
  0 < n -> Z.of_nat (length (slice (- n) l)) <= n.
Proof.
  intros H. unfold slice. rewrite length_drop.
  destruct (- n <? 0) eqn:E; [|apply Z.ltb_ge in E]; lia.
Qed.

Lemma slice_all {A} (n : Z) (l : list A) :
  0 < n -> Z.of_nat (length l) <= n -> slice (- n) l = l.
Proof.
  intros H Hl. unfold slice.
  destruct (- n <? 0) eqn:E; [|apply Z.ltb_ge in E; lia].
  by replace (Z.to_nat _) with 0%nat by lia.
Qed.

(** C6 does not hold as stated. [app.log] holds a line of 300 letters [a]
    and the line [last], 306 bytes; [readLastLines] for 2 lines reads from
    offset 66, inside the first line. The first fragment of that suffix, the
    last 234 letters of the first line, is returned as a line. *)
Lemma first_fragment_returned :
  statSync (disk_with long_first_line) app_log = Stats 306 /\
  Z.max 0 (306 - Z.min (2 * 120) 306) = 66 /\
  head (split_lf (decode_ascii (byte_range long_first_line
          {| rq_path := app_log; rq_start := 66; rq_end := None |}))) =
    Some (replicate 234 97%N) /\
  Tail.readLastLines (disk_with long_first_line) app_log 2 =
    inr [replicate 234 97%N; js "last"].
Proof. by vm_compute. Qed.

(** C6, amended. [readLastLines(file, n)] on a non-empty file whose stream
    ends returns the last [n] of the non-blank fragments of the suffix,
    split at line feeds: the first fragment is kept like any other, and is
    the first line returned when it is not blank and the suffix has at most
    [n] non-blank fragments, wherever the suffix starts. For [n >= 1] the
    result has at most [n] lines; a suffix without data gives no line. *)
Theorem readLastLines_window (w : World) (f : string) (n size : Z) :
  statSync w f = Stats size ->
  size <> 0 ->
  finish (stream_of w {| rq_path := f;
                         rq_start := Z.max 0 (size - Z.min (n * 120) size);
                         rq_end := None |}) = End ->
  let suffix :=
    concat (chunks (stream_of w
      {| rq_path := f; rq_start := Z.max 0 (size - Z.min (n * 120) size);
         rq_end := None |})) in
  let kept := filter (fun l => blank l = false) (split_lf suffix) in
  Tail.readLastLines w f n = inr (slice (- n) kept) /\
  (0 < n -> Z.of_nat (length (slice (- n) kept)) <= n) /\
  (suffix = [] -> slice (- n) kept = []) /\
  (forall first rest,
     split_lf suffix = first :: rest -> blank first = false ->
     0 < n -> Z.of_nat (length kept) <= n ->
     head (slice (- n) kept) = Some first).
Proof.
  intros Hstat Hsize Hend suffix kept.
  rewrite readLastLines_eq, Hstat. apply Z.eqb_neq in Hsize. rewrite Hsize.
  cbv zeta. rewrite Hend. split_and!; [done | apply slice_last_length | |].
  - subst kept. intros ->. by destruct n.
  - intros first rest E B Hn Hk. rewrite slice_all by done.
    subst kept. rewrite E, filter_cons_True by done. done.
Qed.

Lemma readLastLines_window_witness :
  statSync (disk_with long_first_line) app_log = Stats 306 /\
  Tail.readLastLines (disk_with long_first_line) app_log 2 =
    inr (slice (- 2)
           (filter (fun l => blank l = false)
              (split_lf (decode_ascii (drop 66 long_first_line))))).
Proof.
  split; [reflexivity|].
  apply (readLastLines_window (disk_with long_first_line) app_log 2 306);
    [reflexivity | lia | reflexivity].
Defined.

(** ** Starting a tail *)

(** C7. [tail] on a path that does not exist emits an ['error'] and rejects
    with the error [File not found: <absolute path>], leaving the tailer as
    it was; on an existing file of length zero [readLastLines] resolves with
    no line, [tail] emits no event at all and does not reject, and the
    cursor of the file is 0. *)
Theorem tail_missing_or_empty (w : World) (t : Tail.LogTailer) (f : string)
    (o : Tail.TailOptions) :
  (existsSync w (resolve w f) = false ->
   Tail.tail w t f o =
     (t, [Tail.Error (Error_ ("File not found: " +:+ resolve w f))],
      Some (Error_ ("File not found: " +:+ resolve w f)))) /\
  (existsSync w (resolve w f) = true ->
   statSync w (resolve w f) = Stats 0 ->
   Tail.readLastLines w (resolve w f) (default 10 (Tail.lines o)) = inr [] /\
   snd (fst (Tail.tail w t f o)) = [] /\
   snd (Tail.tail w t f o) = None /\
   Tail.files (fst (fst (Tail.tail w t f o))) =
     map_set (resolve w f) 0 (Tail.files t)).
Proof.
  unfold Tail.tail. split.
  - by intros ->.
  - intros -> Hs. simpl. unfold Tail.readLastLines. rewrite Hs. simpl.
    by destruct (default false _).
Qed.

Lemma tail_missing_or_empty_witness :
  (existsSync (disk_with []) "other.log" = false /\
   Tail.tail (disk_with []) Tail.new_LogTailer "other.log"
     {| Tail.lines := None; Tail.follow := None |} =
     (Tail.new_LogTailer,
      [Tail.Error (Error_ "File not found: other.log")],
      Some (Error_ "File not found: other.log"))) /\
  (existsSync (disk_with []) app_log = true /\
   statSync (disk_with []) app_log = Stats 0 /\
   Tail.readLastLines (disk_with []) app_log 10 = inr [] /\
   snd (fst (Tail.tail (disk_with []) Tail.new_LogTailer app_log
               {| Tail.lines := None; Tail.follow := Some true |})) = [] /\
   snd (Tail.tail (disk_with []) Tail.new_LogTailer app_log
          {| Tail.lines := None; Tail.follow := Some true |}) = None /\
   Tail.files
     (fst (fst (Tail.tail (disk_with []) Tail.new_LogTailer app_log
                  {| Tail.lines := None; Tail.follow := Some true |}))) =
     [(app_log, 0)]).
Proof.
  split.
  - split; [reflexivity|].
    apply (tail_missing_or_empty (disk_with []) Tail.new_LogTailer "other.log"
             {| Tail.lines := None; Tail.follow := None |}).
    reflexivity.
  - split; [reflexivity|]. split; [reflexivity|].
    apply (tail_missing_or_empty (disk_with []) Tail.new_LogTailer app_log
             {| Tail.lines := None; Tail.follow := Some true |});
      reflexivity.
Defined.

(** ** The map of cursors *)

Lemma map_get_set_eq k v m : map_get k (map_set k v m) = Some v.
Proof.
  induction m as [|[k' v'] m IH]; simpl.
  - by rewrite decide_True.
  - destruct (decide (k' = k)) as [->|Hne]; simpl.
    + by rewrite decide_True.
    + by rewrite decide_False.
Qed.

Lemma map_get_set_ne k k' v m :
  k <> k' -> map_get k' (map_set k v m) = map_get k' m.
Proof.
  intros Hne. induction m as [|[k0 v0] m IH]; simpl.
  - by rewrite decide_False.
  - destruct (decide (k0 = k)) as [->|Hne0]; simpl.
    + by rewrite !decide_False.
    + by rewrite IH.
Qed.

Lemma map_get_delete_ne k k' m :
  k <> k' -> map_get k' (map_delete k m) = map_get k' m.
Proof.
  intros Hne. induction m as [|[k0 v0] m IH]; simpl; [done|].
  destruct (decide (k0 = k)) as [->|Hne0]; simpl.
  - by rewrite decide_False.
  - by rewrite IH.
Qed.

Lemma map_set_keys k v m :
  (map_set k v m).*1 = if decide (k ∈ m.*1) then m.*1 else m.*1 ++ [k].
Proof.
  induction m as [|[k0 v0] m IH]; [done|]. cbn [map_set].
  destruct (decide (k0 = k)) as [->|Hne0]; rewrite !fmap_cons; cbn [fst].
  - rewrite decide_True; [done | by left].
  - rewrite IH. destruct (decide (k ∈ m.*1)) as [Hin|Hout].
    + rewrite decide_True; [done | by right].
    + rewrite decide_False; [done|].
      intros [?|?]%elem_of_cons; [congruence | done].
Qed.

Lemma map_delete_keys_sublist k m : sublist (map_delete k m).*1 m.*1.
Proof.
  induction m as [|[k0 v0] m IH]; [done|]. cbn [map_delete].
  destruct (decide (k0 = k)); rewrite !fmap_cons.
  - by apply sublist_cons.
  - by apply sublist_skip.
Qed.

Lemma map_set_NoDup k v m : NoDup m.*1 -> NoDup (map_set k v m).*1.
Proof.
  intros H. rewrite map_set_keys. destruct (decide (k ∈ m.*1)); [done|].
  apply NoDup_app. split_and!; [done | | apply NoDup_singleton].
  intros x Hx ->%list_elem_of_singleton. done.
Qed.

Lemma map_delete_NoDup k m : NoDup m.*1 -> NoDup (map_delete k m).*1.
Proof.
  intros H. apply (sublist_NoDup _ _ H), map_delete_keys_sublist.
Qed.

Lemma map_get_split k v m :
  map_get k m = Some v ->
  exists m1 m2, m = m1 ++ (k, v) :: m2 /\ k ∉ m1.*1.
Proof.
  induction m as [|[k0 v0] m IH]; simpl; [done|].
  destruct (decide (k0 = k)) as [->|Hne].
  - intros [= ->]. exists [], m. split; [done|]. by intros ?%elem_of_nil.
  - intros (m1 & m2 & -> & Hm1)%IH. exists ((k0, v0) :: m1), m2.
    split; [done|]. rewrite fmap_cons.
    intros [?|?]%elem_of_cons; [simpl in *; congruence | done].
Qed.

Lemma map_get_None k m : k ∉ m.*1 -> map_get k m = None.
Proof.
  induction m as [|[k0 v0] m IH]; [done|]. rewrite fmap_cons.
  intros H. cbn [map_get fst]. rewrite decide_False.
  - apply IH. intros ?. apply H. by right.
  - intros ->. apply H. by left.
Qed.

(** ** The polling loop, seen from one file *)

Lemma tail_events_of_app f l1 l2 :
  tail_events_of f (l1 ++ l2) = tail_events_of f l1 ++ tail_events_of f l2.
Proof. apply filter_app. Qed.

Lemma requests_of_app f l1 l2 :
  requests_of f (l1 ++ l2) = requests_of f l1 ++ requests_of f l2.
Proof. apply filter_app. Qed.

Lemma createReadStream_path rq rq' : createReadStream rq = inr rq' -> rq' = rq.
Proof. unfold createReadStream. by destruct (_ || _); intros [= <-]. Qed.

Lemma catch_other p g e f :
  g <> f -> view_eq f (Tail.catch p g e) p.
Proof.
  intros Hne. unfold Tail.catch, view_eq.
  destruct (decide (error_code e = Some "ENOENT")); simpl.
  - rewrite map_get_delete_ne, tail_events_of_app by done.
    unfold tail_events_of at 2. rewrite filter_cons_False, app_nil_r; [done|].
    simpl. congruence.
  - rewrite tail_events_of_app.
    unfold tail_events_of at 2. by rewrite filter_cons_False, app_nil_r.
Qed.

Lemma check_file_other w p g pos f :
  g <> f -> view_eq f (Tail.check_file w p (g, pos)) p.
Proof.
  intros Hne. unfold Tail.check_file, Tail.readNewContent.
  destruct (statSync w g) as [size|e]; [|by apply catch_other].
  destruct (size <? pos).
  - destruct (createReadStream _) as [e|rq] eqn:E.
    + destruct (catch_other (Tail.files_set p g 0) g e f Hne) as (H1 & H2 & H3).
      split_and!; [rewrite H1 | by rewrite H2 | by rewrite H3].
      simpl. by rewrite map_get_set_ne.
    + apply createReadStream_path in E as ->. split_and!; simpl.
      * by rewrite map_get_set_ne.
      * done.
      * rewrite requests_of_app. unfold requests_of at 2.
        by rewrite filter_cons_False, app_nil_r.
  - destruct (size >? pos); [|done].
    destruct (createReadStream _) as [e|rq] eqn:E; [by apply catch_other|].
    apply createReadStream_path in E as ->. split_and!; simpl.
    * by rewrite map_get_set_ne.
    * done.
    * rewrite requests_of_app. unfold requests_of at 2.
      by rewrite filter_cons_False, app_nil_r.
Qed.

Lemma view_eq_trans f p q r : view_eq f p q -> view_eq f q r -> view_eq f p r.
Proof. intros (?&?&?) (?&?&?). split_and!; congruence. Qed.

Lemma fold_check_file_other w f es p :
  f ∉ es.*1 -> view_eq f (foldl (Tail.check_file w) p es) p.
Proof.
  revert p. induction es as [|[g pos] es IH]; intros p H; [done|].
  rewrite fmap_cons in H. apply not_elem_of_cons in H as [Hne Hes]. simpl.
  eapply view_eq_trans; [by apply IH|]. by apply check_file_other.
Qed.

(** Under the invariant of a [Map] (no key twice), the loop shows of [f]
    what the single turn for the entry of [f] shows, run on a poll where [f]
    still has its cursor and nothing happened to it yet. *)
Lemma checkForNewContent_at w t f pos :
  NoDup (Tail.getFiles t) ->
  map_get f (Tail.files t) = Some pos ->
  exists p,
    map_get f (Tail.files (Tail.tailer p)) = Some pos /\
    tail_events_of f (Tail.log p) = [] /\
    requests_of f (Tail.opened p) = [] /\
    view_eq f (Tail.checkForNewContent w t) (Tail.check_file w p (f, pos)).
Proof.
  intros Hnd Hget. unfold Tail.checkForNewContent, Tail.getFiles in *.
  destruct (map_get_split _ _ _ Hget) as (m1 & m2 & E & Hm1).
  rewrite E in Hnd |- *. rewrite fmap_app, fmap_cons in Hnd.
  apply NoDup_app in Hnd as (_ & _ & [Hm2 _]%NoDup_cons).
  rewrite foldl_app. simpl.
  set (p0 := {| Tail.tailer := t; Tail.log := []; Tail.opened := [] |}).
  destruct (fold_check_file_other w f m1 p0 Hm1) as (H1 & H2 & H3).
  exists (foldl (Tail.check_file w) p0 m1). split_and!.
  - by rewrite H1.
  - by rewrite H2.
  - by rewrite H3.
  - by apply fold_check_file_other.
Qed.

Lemma check_file_unchanged w p f size :
  statSync w f = Stats size -> Tail.check_file w p (f, size) = p.
Proof.
  intros H. unfold Tail.check_file. rewrite H.
  by rewrite Z.ltb_irrefl, Z.gtb_ltb, Z.ltb_irrefl.
Qed.

Lemma check_file_grown w p f pos size :
  statSync w f = Stats size -> 0 <= pos < size ->
  Tail.check_file w p (f, pos) =
    Tail.files_set
      (Tail.open p {| rq_path := f; rq_start := pos; rq_end := Some (size - 1) |})
      f size.
Proof.
  intros H Hlt. unfold Tail.check_file, Tail.readNewContent, createReadStream.
  rewrite H. cbn [rq_start rq_end].
  replace (size <? pos) with false by (symmetry; apply Z.ltb_ge; lia).
  replace (size >? pos) with true by (symmetry; apply Z.gtb_lt; lia).
  replace (pos <? 0) with false by (symmetry; apply Z.ltb_ge; lia).
  replace (size - 1 <? 0) with false by (symmetry; apply Z.ltb_ge; lia).
  by replace (size - 1 <? pos) with false by (symmetry; apply Z.ltb_ge; lia).
Qed.

Lemma check_file_truncated w p f pos size :
  statSync w f = Stats size -> 0 < size < pos ->
  Tail.check_file w p (f, pos) =
    Tail.open (Tail.files_set p f 0)
      {| rq_path := f; rq_start := 0; rq_end := Some (size - 1) |}.
Proof.
  intros H Hlt. unfold Tail.check_file, Tail.readNewContent, createReadStream.
  rewrite H. cbn [rq_start rq_end].
  replace (size <? pos) with true by (symmetry; apply Z.ltb_lt; lia).
  by replace (size - 1 <? 0) with false by (symmetry; apply Z.ltb_ge; lia).
Qed.

(** The events of a stream name the file of the stream, or none. *)
Lemma tail_emit_lines_file f n ls :
  Forall (fun ev => tail_event_file ev = Some f) (snd (Tail.emit_lines f n ls)).
Proof.
  revert n. induction ls as [|l ls IH]; intros n; simpl; [done|].
  destruct (truthy (trim l)); [|done]. specialize (IH (n + 1)).
  destruct (Tail.emit_lines f (n + 1) ls). by constructor.
Qed.

Lemma run_stream_other g run f :
  g <> f -> tail_events_of f (Tail.run_stream g run) = [].
Proof.
  intros Hne. rewrite tail_run_stream_eq. cbv zeta.
  rewrite tail_events_of_app.
  assert (forall l, Forall (fun ev => tail_event_file ev <> Some f) l ->
                    tail_events_of f l = []) as Hnil.
  { intros l Hl. unfold tail_events_of. induction Hl; [done|].
    by rewrite filter_cons_False. }
  rewrite !Hnil; [done | |].
  - destruct (finish run); [destruct (blank _)|]; repeat constructor;
      simpl; congruence.
  - eapply Forall_impl; [apply tail_emit_lines_file|]. simpl. congruence.
Qed.

Lemma drain_events_of w f rqs :
  tail_events_of f (Tail.drain w rqs) =
    tail_events_of f (Tail.drain w (requests_of f rqs)).
Proof.
  unfold Tail.drain. induction rqs as [|rq rqs IH]; [done|].
  unfold requests_of in *. rewrite filter_cons.
  destruct (decide (rq_path rq = f)) as [E|Hne].
  - rewrite !bind_cons, !tail_events_of_app. by rewrite IH.
  - rewrite bind_cons, tail_events_of_app, IH.
    by rewrite run_stream_other.
Qed.

Lemma drain_elem_of w rq rqs ev :
  rq ∈ rqs -> ev ∈ Tail.run_stream (rq_path rq) (stream_of w rq) ->
  ev ∈ Tail.drain w rqs.
Proof. intros. apply list_elem_of_bind. eauto. Qed.

Lemma requests_of_elem_of f rq rqs : requests_of f rqs = [rq] -> rq ∈ rqs.
Proof.
  intros H. assert (rq ∈ requests_of f rqs) as Hin by (rewrite H; by left).
  by apply list_elem_of_filter in Hin as [_ ?].
Qed.

(** The invariant of the map survives a poll. *)
Lemma catch_NoDup p g e :
  NoDup (Tail.getFiles (Tail.tailer p)) ->
  NoDup (Tail.getFiles (Tail.tailer (Tail.catch p g e))).
Proof.
  unfold Tail.catch, Tail.getFiles. destruct (decide _); [|done].
  apply map_delete_NoDup.
Qed.

Lemma check_file_NoDup w p e :
  NoDup (Tail.getFiles (Tail.tailer p)) ->
  NoDup (Tail.getFiles (Tail.tailer (Tail.check_file w p e))).
Proof.
  intros H. destruct e as [g pos]. unfold Tail.check_file.
  destruct (statSync w g) as [size|e]; [|by apply catch_NoDup].
  destruct (size <? pos).
  - destruct (Tail.readNewContent _ _ _);
      [apply catch_NoDup|]; by apply map_set_NoDup.
  - destruct (size >? pos); [|done].
    destruct (Tail.readNewContent _ _ _);
      [by apply catch_NoDup | by apply map_set_NoDup].
Qed.

Lemma fold_check_file_NoDup w es p :
  NoDup (Tail.getFiles (Tail.tailer p)) ->
  NoDup (Tail.getFiles (Tail.tailer (foldl (Tail.check_file w) p es))).
Proof.
  revert p. induction es as [|e es IH]; intros p Hp; [done|].
  simpl. by apply IH, check_file_NoDup.
Qed.

Lemma tick_NoDup w t :
  NoDup (Tail.getFiles t) -> NoDup (Tail.getFiles (fst (Tail.tick w t))).
Proof. intros H. by apply fold_check_file_NoDup. Qed.


Lemma requests_of_self f s e :
  requests_of f [{| rq_path := f; rq_start := s; rq_end := e |}] =
    [{| rq_path := f; rq_start := s; rq_end := e |}].
Proof. unfold requests_of. by rewrite filter_cons_True. Qed.

Lemma drain_one w rq :
  Tail.drain w [rq] = Tail.run_stream (rq_path rq) (stream_of w rq).
Proof. unfold Tail.drain. simpl. apply app_nil_r. Qed.

Lemma tick_unchanged w t f size :
  NoDup (Tail.getFiles t) ->
  map_get f (Tail.files t) = Some size ->
  statSync w f = Stats size ->
  requests_of f (Tail.opened (Tail.checkForNewContent w t)) = [] /\
  tail_events_of f (snd (Tail.tick w t)) = [] /\
  map_get f (Tail.files (fst (Tail.tick w t))) = Some size.
Proof.
  intros Hnd Hget Hstat.
  destruct (checkForNewContent_at w t f size Hnd Hget)
    as (p & Hp1 & Hp2 & Hp3 & (V1 & V2 & V3)).
  rewrite check_file_unchanged in V1, V2, V3 by done.
  unfold Tail.tick. cbn [fst snd].
  rewrite tail_events_of_app, drain_events_of, V1, V2, V3, Hp2, Hp3.
  done.
Qed.

Lemma tick_grown w t f pos size :
  NoDup (Tail.getFiles t) ->
  map_get f (Tail.files t) = Some pos ->
  statSync w f = Stats size ->
  0 <= pos < size ->
  requests_of f (Tail.opened (Tail.checkForNewContent w t)) =
    [{| rq_path := f; rq_start := pos; rq_end := Some (size - 1) |}] /\
  tail_events_of f (snd (Tail.tick w t)) =
    tail_events_of f
      (Tail.run_stream f
         (stream_of w {| rq_path := f; rq_start := pos;
                         rq_end := Some (size - 1) |})) /\
  map_get f (Tail.files (fst (Tail.tick w t))) = Some size.
Proof.
  intros Hnd Hget Hstat Hlt.
  destruct (checkForNewContent_at w t f pos Hnd Hget)
    as (p & Hp1 & Hp2 & Hp3 & (V1 & V2 & V3)).
  rewrite (check_file_grown w p f pos size) in V1, V2, V3 by done. simpl in V1, V2, V3.
  rewrite requests_of_app, Hp3, requests_of_self in V3.
  unfold Tail.tick. cbn [fst snd].
  rewrite tail_events_of_app, drain_events_of, V1, V2, V3, Hp2.
  rewrite !app_nil_l, drain_one. by rewrite map_get_set_eq.
Qed.

Lemma tick_truncated w t f pos size :
  NoDup (Tail.getFiles t) ->
  map_get f (Tail.files t) = Some pos ->
  statSync w f = Stats size ->
  0 < size < pos ->
  requests_of f (Tail.opened (Tail.checkForNewContent w t)) =
    [{| rq_path := f; rq_start := 0; rq_end := Some (size - 1) |}] /\
  tail_events_of f (snd (Tail.tick w t)) =
    tail_events_of f
      (Tail.run_stream f
         (stream_of w {| rq_path := f; rq_start := 0;
                         rq_end := Some (size - 1) |})) /\
  map_get f (Tail.files (fst (Tail.tick w t))) = Some 0.
Proof.
  intros Hnd Hget Hstat Hlt.
  destruct (checkForNewContent_at w t f pos Hnd Hget)
    as (p & Hp1 & Hp2 & Hp3 & (V1 & V2 & V3)).
  rewrite (check_file_truncated w p f pos size) in V1, V2, V3 by done. simpl in V1, V2, V3.
  rewrite requests_of_app, Hp3, requests_of_self in V3.
  unfold Tail.tick. cbn [fst snd].
  rewrite tail_events_of_app, drain_events_of, V1, V2, V3, Hp2.
  rewrite !app_nil_l, drain_one. by rewrite map_get_set_eq.
Qed.

(** The watcher's [handleFileChange], case by case. *)
Lemma set_filePositions_id (t : Watcher.LogWatcher) k v :
  Watcher.filePositions t !! k = Some v ->
  Watcher.set_filePositions t (<[k := v]> (Watcher.filePositions t)) = t.
Proof.
  intros H. destruct t as [wt m fs]. unfold Watcher.set_filePositions.
  simpl in *. by rewrite insert_id.
Qed.

Lemma handleFileChange_unchanged w t f size :
  Watcher.filePositions t !! resolve w f = Some size ->
  statSync w (resolve w f) = Stats size ->
  Watcher.handleFileChange w t f = (t, [], []).
Proof.
  intros Hget Hstat. unfold Watcher.handleFileChange.
  rewrite Hstat, Hget. simpl.
  rewrite Z.ltb_irrefl, Z.gtb_ltb, Z.ltb_irrefl.
  by rewrite set_filePositions_id.
Qed.

Lemma handleFileChange_grown w t f pos size :
  Watcher.filePositions t !! resolve w f = Some pos ->
  statSync w (resolve w f) = Stats size ->
  0 <= pos < size ->
  Watcher.handleFileChange w t f =
    (Watcher.set_filePositions t
       (<[resolve w f := size]> (Watcher.filePositions t)),
     [],
     [{| rq_path := resolve w f; rq_start := pos; rq_end := Some (size - 1) |}]).
Proof.
  intros Hget Hstat Hlt.
  unfold Watcher.handleFileChange, Watcher.readNewContent, createReadStream.
  rewrite Hstat, Hget. cbn [rq_start rq_end].
  change (Watcher.or_zero (Some pos)) with pos.
  replace (size <? pos) with false by (symmetry; apply Z.ltb_ge; lia).
  replace (size >? pos) with true by (symmetry; apply Z.gtb_lt; lia).
  replace (pos <? 0) with false by (symmetry; apply Z.ltb_ge; lia).
  replace (size - 1 <? 0) with false by (symmetry; apply Z.ltb_ge; lia).
  by replace (size - 1 <? pos) with false by (symmetry; apply Z.ltb_ge; lia).
Qed.

Lemma handleFileChange_truncated w t f pos size :
  Watcher.filePositions t !! resolve w f = Some pos ->
  statSync w (resolve w f) = Stats size ->
  0 < size < pos ->
  Watcher.handleFileChange w t f =
    (Watcher.set_filePositions t
       (<[resolve w f := 0]> (Watcher.filePositions t)),
     [],
     [{| rq_path := resolve w f; rq_start := 0; rq_end := Some (size - 1) |}]).
Proof.
  intros Hget Hstat Hlt.
  unfold Watcher.handleFileChange, Watcher.readNewContent, createReadStream.
  rewrite Hstat, Hget. cbn [rq_start rq_end].
  change (Watcher.or_zero (Some pos)) with pos.
  replace (size <? pos) with true by (symmetry; apply Z.ltb_lt; lia).
  by replace (size - 1 <? 0) with false by (symmetry; apply Z.ltb_ge; lia).
Qed.

(** ** The change check *)

(** C5. When the size observed equals the stored cursor, the turn of the
    polling loop for the file leaves the poll as it was; over the whole
    tick no stream is opened on the file, no event names it and its cursor
    is unchanged. The watcher's [handleFileChange] returns the watcher
    unchanged with no event and no stream. *)
Theorem unchanged_size_no_read :
  (forall w p f size,
     statSync w f = Stats size -> Tail.check_file w p (f, size) = p) /\
  (forall w t f size,
     NoDup (Tail.getFiles t) ->
     map_get f (Tail.files t) = Some size ->
     statSync w f = Stats size ->
     requests_of f (Tail.opened (Tail.checkForNewContent w t)) = [] /\
     tail_events_of f (snd (Tail.tick w t)) = [] /\
     map_get f (Tail.files (fst (Tail.tick w t))) = Some size) /\
  (forall w t f size,
     Watcher.filePositions t !! resolve w f = Some size ->
     statSync w (resolve w f) = Stats size ->
     Watcher.handleFileChange w t f = (t, [], []) /\
     Watcher.notice w t f = (t, [])).
Proof.
  split_and!.
  - apply check_file_unchanged.
  - apply tick_unchanged.
  - intros w t f size Hget Hstat. unfold Watcher.notice.
    by rewrite (handleFileChange_unchanged w t f size).
Qed.

Lemma unchanged_size_no_read_witness :
  (statSync (disk_with grown_log) app_log = Stats 620 /\
   NoDup (Tail.getFiles (tailer_at 620)) /\
   map_get app_log (Tail.files (tailer_at 620)) = Some 620 /\
   requests_of app_log
     (Tail.opened (Tail.checkForNewContent (disk_with grown_log) (tailer_at 620)))
     = [] /\
   tail_events_of app_log (snd (Tail.tick (disk_with grown_log) (tailer_at 620)))
     = [] /\
   map_get app_log
     (Tail.files (fst (Tail.tick (disk_with grown_log) (tailer_at 620))))
     = Some 620) /\
  (Watcher.filePositions (watcher_at 620) !! app_log = Some 620 /\
   Watcher.handleFileChange (disk_with grown_log) (watcher_at 620) app_log =
     (watcher_at 620, [], []) /\
   Watcher.notice (disk_with grown_log) (watcher_at 620) app_log =
     (watcher_at 620, [])).
Proof.
  destruct unchanged_size_no_read as (_ & Htick & Hnotice).
  assert (NoDup (Tail.getFiles (tailer_at 620))) as Hnd
    by (repeat constructor; by intros ?%elem_of_nil).
  split.
  - split; [reflexivity|]. split; [exact Hnd|]. split; [reflexivity|].
    exact (Htick (disk_with grown_log) (tailer_at 620) app_log 620
             Hnd eq_refl eq_refl).
  - split; [reflexivity|].
    exact (Hnotice (disk_with grown_log) (watcher_at 620) app_log 620
             eq_refl eq_refl).
Defined.

Lemma tail_emit_lines_explicit f n ls :
  Tail.emit_lines f n ls =
    (n + Z.of_nat (length (filter (fun l => blank l = false) ls)),
     imap (fun i l => Tail.Line {| Tail.file := f; Tail.line := l;
                                   Tail.lineNumber := n + Z.of_nat i + 1 |})
       (filter (fun l => blank l = false) ls)).
Proof.
  revert n. induction ls as [|l ls IH]; intros n.
  - simpl. f_equal. lia.
  - cbn [Tail.emit_lines]. rewrite truthy_trim, filter_cons.
    destruct (blank l); cbn [negb]; [apply IH|].
    rewrite IH, decide_True by done. rewrite imap_cons. cbn [length].
    replace (n + Z.of_nat 0 + 1) with (n + 1) by lia.
    f_equal; [lia|]. f_equal.
    apply imap_ext. intros i x _. simpl.
    by replace (n + 1 + Z.of_nat i + 1) with (n + Z.of_nat (S i) + 1) by lia.
Qed.

Lemma watcher_emit_lines_explicit f ls :
  Watcher.emit_lines f ls =
    watcher_line_events f (filter (fun l => blank l = false) ls).
Proof.
  unfold watcher_line_events. induction ls as [|l ls IH]; [done|].
  change (l :: ls) with ([l] ++ ls).
  rewrite watcher_emit_lines_app, filter_app, fmap_app, IH. f_equal.
  unfold Watcher.emit_lines. simpl. rewrite truthy_trim, filter_cons.
  by destruct (blank l).
Qed.

(** The handlers of [readNewContent] against [delivered_lines]. *)
Lemma tail_run_stream_explicit f run :
  Tail.run_stream f run =
    tail_line_events f (delivered_lines run) ++
    match finish run with
    | End => []
    | StreamError e => [Tail.Error e]
    end.
Proof.
  rewrite tail_run_stream_eq. cbv zeta. rewrite tail_emit_lines_explicit.
  cbn [fst snd]. unfold delivered_lines, tail_line_events.
  rewrite filter_app, imap_app.
  set (kept := filter _ (complete_lines _)).
  assert (imap (fun i l => Tail.Line {| Tail.file := f; Tail.line := l;
                                        Tail.lineNumber := 0 + Z.of_nat i + 1 |})
            kept =
          imap (fun i l => Tail.Line {| Tail.file := f; Tail.line := l;
                                        Tail.lineNumber := Z.of_nat i + 1 |})
            kept) as ->
    by (apply imap_ext; intros i x _; simpl;
        by replace (0 + Z.of_nat i + 1) with (Z.of_nat i + 1) by lia).
  destruct (finish run) as [|e];
    [|rewrite filter_nil; simpl; by rewrite app_nil_r].
  rewrite filter_cons. destruct (blank _); simpl.
  - by rewrite !app_nil_r.
  - rewrite app_nil_r, Nat.add_0_r.
    by replace (0 + Z.of_nat (length kept) + 1)
      with (Z.of_nat (length kept) + 1) by lia.
Qed.

Lemma watcher_run_stream_explicit f run :
  Watcher.run_stream f run =
    watcher_line_events f (delivered_lines run) ++
    match finish run with
    | End => []
    | StreamError e => [Watcher.Error e]
    end.
Proof.
  rewrite watcher_run_stream_eq. cbv zeta. rewrite watcher_emit_lines_explicit.
  unfold delivered_lines, watcher_line_events.
  rewrite filter_app, fmap_app.
  destruct (finish run) as [|e];
    [|rewrite filter_nil; simpl; by rewrite app_nil_r].
  rewrite filter_cons. destruct (blank _); simpl; by rewrite ?app_nil_r.
Qed.

Lemma tail_events_of_numbered f (g : nat -> Z) ls :
  tail_events_of f
    (imap (fun i l => Tail.Line {| Tail.file := f; Tail.line := l;
                                   Tail.lineNumber := g i |}) ls) =
    imap (fun i l => Tail.Line {| Tail.file := f; Tail.line := l;
                                  Tail.lineNumber := g i |}) ls.
Proof.
  revert g. induction ls as [|l ls IH]; intros g; [done|].
  rewrite imap_cons. unfold tail_events_of in *.
  rewrite filter_cons_True by done. f_equal. apply (IH (g ∘ S)).
Qed.

Lemma tail_events_of_run_stream f run :
  tail_events_of f (Tail.run_stream f run) =
    tail_line_events f (delivered_lines run).
Proof.
  rewrite tail_run_stream_explicit, tail_events_of_app.
  unfold tail_line_events.
  rewrite (tail_events_of_numbered f (fun i => Z.of_nat i + 1)).
  destruct (finish run); [by rewrite app_nil_r|].
  unfold tail_events_of. by rewrite filter_cons_False, app_nil_r.
Qed.

(** C4. For a tracked file whose size is above its cursor (a cursor of 500
    and a size of 620 in the witness), the change check opens one stream on
    the file, on the offsets from the cursor to the size less one, both
    included: exactly the range [cursor, size), nothing before the cursor.
    The text of that range is split into line events: the events of the tick
    that name the file are one ['line'] event, numbered from 1, for each
    non-blank piece of the text cut at its line feeds, in order, and nothing
    else; the cursor becomes the size. The watcher opens the same stream
    and emits the same lines, followed by the ['error'] if the stream
    failed. *)
Theorem grown_file_reads_the_delta (w : World) (f : string) (pos size : Z) :
  0 <= pos < size ->
  (forall o,
     covers {| rq_path := f; rq_start := pos; rq_end := Some (size - 1) |} o
     <-> pos <= o < size) /\
  (forall t,
     NoDup (Tail.getFiles t) ->
     map_get f (Tail.files t) = Some pos ->
     statSync w f = Stats size ->
     requests_of f (Tail.opened (Tail.checkForNewContent w t)) =
       [{| rq_path := f; rq_start := pos; rq_end := Some (size - 1) |}] /\
     tail_events_of f (snd (Tail.tick w t)) =
       tail_events_of f
         (Tail.run_stream f
            (stream_of w {| rq_path := f; rq_start := pos;
                            rq_end := Some (size - 1) |})) /\
     tail_events_of f (snd (Tail.tick w t)) =
       tail_line_events f
         (delivered_lines
            (stream_of w {| rq_path := f; rq_start := pos;
                            rq_end := Some (size - 1) |})) /\
     map_get f (Tail.files (fst (Tail.tick w t))) = Some size) /\
  (forall t,
     Watcher.filePositions t !! resolve w f = Some pos ->
     statSync w (resolve w f) = Stats size ->
     snd (Watcher.handleFileChange w t f) =
       [{| rq_path := resolve w f; rq_start := pos;
           rq_end := Some (size - 1) |}] /\
     snd (Watcher.notice w t f) =
       Watcher.run_stream (resolve w f)
         (stream_of w {| rq_path := resolve w f; rq_start := pos;
                         rq_end := Some (size - 1) |}) /\
     snd (Watcher.notice w t f) =
       watcher_line_events (resolve w f)
         (delivered_lines
            (stream_of w {| rq_path := resolve w f; rq_start := pos;
                            rq_end := Some (size - 1) |})) ++
       match finish (stream_of w {| rq_path := resolve w f; rq_start := pos;
                                    rq_end := Some (size - 1) |}) with
       | End => []
       | StreamError e => [Watcher.Error e]
       end /\
     Watcher.filePositions (fst (Watcher.notice w t f)) !! resolve w f =
       Some size).
Proof.
  intros Hlt. split_and!.
  - intros o. unfold covers. simpl. lia.
  - intros t Hnd Hget Hstat.
    destruct (tick_grown w t f pos size Hnd Hget Hstat Hlt) as (H1 & H2 & H3).
    split_and!; [done | done | | done].
    by rewrite H2, tail_events_of_run_stream.
  - intros t Hget Hstat. unfold Watcher.notice.
    rewrite (handleFileChange_grown w t f pos size) by done. simpl.
    rewrite app_nil_r, lookup_insert_eq. split_and!; try done.
    apply watcher_run_stream_explicit.
Qed.

Lemma grown_file_reads_the_delta_witness :
  0 <= 500 < 620 /\
  NoDup (Tail.getFiles (tailer_at 500)) /\
  map_get app_log (Tail.files (tailer_at 500)) = Some 500 /\
  statSync (disk_with grown_log) app_log = Stats 620 /\
  Watcher.filePositions (watcher_at 500) !! app_log = Some 500 /\
  (requests_of app_log
     (Tail.opened (Tail.checkForNewContent (disk_with grown_log) (tailer_at 500)))
     = [{| rq_path := app_log; rq_start := 500; rq_end := Some (620 - 1) |}] /\
   tail_events_of app_log (snd (Tail.tick (disk_with grown_log) (tailer_at 500)))
     = tail_events_of app_log
         (Tail.run_stream app_log
            (stream_of (disk_with grown_log)
               {| rq_path := app_log; rq_start := 500;
                  rq_end := Some (620 - 1) |})) /\
   tail_events_of app_log (snd (Tail.tick (disk_with grown_log) (tailer_at 500)))
     = tail_line_events app_log
         (delivered_lines
            (stream_of (disk_with grown_log)
               {| rq_path := app_log; rq_start := 500;
                  rq_end := Some (620 - 1) |})) /\
   map_get app_log
     (Tail.files (fst (Tail.tick (disk_with grown_log) (tailer_at 500))))
     = Some 620) /\
  delivered_lines
    (stream_of (disk_with grown_log)
       {| rq_path := app_log; rq_start := 500; rq_end := Some (620 - 1) |}) =
    [js "error: disk full"; replicate 102 110%N] /\
  snd (Watcher.notice (disk_with grown_log) (watcher_at 500) app_log) =
    [Watcher.Line {| Watcher.line_file := app_log;
                     Watcher.line := js "error: disk full" |};
     Watcher.Line {| Watcher.line_file := app_log;
                     Watcher.line := replicate 102 110%N |}].
Proof.
  assert (NoDup (Tail.getFiles (tailer_at 500))) as Hnd
    by (repeat constructor; by intros ?%elem_of_nil).
  destruct (grown_file_reads_the_delta (disk_with grown_log) app_log 500 620
              ltac:(lia)) as (_ & Htail & Hwatch).
  split; [lia|]. split; [exact Hnd|]. split; [reflexivity|].
  split; [reflexivity|]. split; [reflexivity|].
  split; [exact (Htail (tailer_at 500) Hnd eq_refl eq_refl)|].
  split; [reflexivity|].
  destruct (Hwatch (watcher_at 500) eq_refl eq_refl) as (_ & _ & -> & _).
  reflexivity.
Defined.

(** The scenario of C4 run on [grown_log]: the stream covers the last 120
    bytes and yields the two new lines. *)
Example grown_log_events :
  byte_range grown_log
    {| rq_path := app_log; rq_start := 500; rq_end := Some 619 |} =
    drop 500 grown_log /\
  Tail.tick (disk_with grown_log) (tailer_at 500) =
    (tailer_at 620,
     [Tail.Line {| Tail.file := app_log; Tail.line := js "error: disk full";
                   Tail.lineNumber := 1 |};
      Tail.Line {| Tail.file := app_log; Tail.line := replicate 102 110%N;
                   Tail.lineNumber := 2 |}]) /\
  snd (Watcher.notice (disk_with grown_log) (watcher_at 500) app_log) =
    [Watcher.Line {| Watcher.line_file := app_log;
                     Watcher.line := js "error: disk full" |};
     Watcher.Line {| Watcher.line_file := app_log;
                     Watcher.line := replicate 102 110%N |}].
Proof. by vm_compute. Qed.

(** C2, on the code. With the cursor at 500 and a size of 80 both drivers
    take the truncation branch and open one stream on the offsets 0 to 79,
    the whole content; but the branch
    leaves by [continue] (tail.ts 174) or [return] (watcher.ts 100) with the
    cursor at 0, not 80. At the next check, the size still 80, the file
    counts as grown from 0: the same range is read a second time, and only
    then is the cursor 80. *)
Theorem truncation_leaves_cursor_at_zero :
  (forall w t f,
     NoDup (Tail.getFiles t) ->
     map_get f (Tail.files t) = Some 500 ->
     statSync w f = Stats 80 ->
     requests_of f (Tail.opened (Tail.checkForNewContent w t)) =
       [{| rq_path := f; rq_start := 0; rq_end := Some 79 |}] /\
     map_get f (Tail.files (fst (Tail.tick w t))) = Some 0 /\
     requests_of f
       (Tail.opened (Tail.checkForNewContent w (fst (Tail.tick w t)))) =
       [{| rq_path := f; rq_start := 0; rq_end := Some 79 |}] /\
     map_get f (Tail.files (fst (Tail.tick w (fst (Tail.tick w t))))) =
       Some 80) /\
  (forall w t f,
     Watcher.filePositions t !! resolve w f = Some 500 ->
     statSync w (resolve w f) = Stats 80 ->
     snd (Watcher.handleFileChange w t f) =
       [{| rq_path := resolve w f; rq_start := 0; rq_end := Some 79 |}] /\
     Watcher.filePositions (fst (Watcher.notice w t f)) !! resolve w f =
       Some 0 /\
     snd (Watcher.handleFileChange w (fst (Watcher.notice w t f)) f) =
       [{| rq_path := resolve w f; rq_start := 0; rq_end := Some 79 |}] /\
     Watcher.filePositions
       (fst (Watcher.notice w (fst (Watcher.notice w t f)) f)) !! resolve w f =
       Some 80).
Proof.
  split.
  - intros w t f Hnd Hget Hstat.
    destruct (tick_truncated w t f 500 80 Hnd Hget Hstat ltac:(lia))
      as (H1 & _ & H2).
    destruct (tick_grown w (fst (Tail.tick w t)) f 0 80
                (tick_NoDup w t Hnd) H2 Hstat ltac:(lia)) as (H3 & _ & H4).
    done.
  - intros w t f Hget Hstat.
    assert (Watcher.notice w t f =
              (Watcher.set_filePositions t
                 (<[resolve w f := 0]> (Watcher.filePositions t)),
               Watcher.drain w
                 [{| rq_path := resolve w f; rq_start := 0;
                     rq_end := Some 79 |}])) as E1.
    { unfold Watcher.notice.
      by rewrite (handleFileChange_truncated w t f 500 80) by (done || lia). }
    rewrite (handleFileChange_truncated w t f 500 80) by (done || lia).
    rewrite E1. cbn [fst snd].
    set (t1 := Watcher.set_filePositions t _).
    assert (Watcher.filePositions t1 !! resolve w f = Some 0) as Hget1
      by apply lookup_insert_eq.
    unfold Watcher.notice.
    rewrite (handleFileChange_grown w t1 f 0 80) by (done || lia).
    cbn [fst snd Watcher.filePositions Watcher.set_filePositions].
    by rewrite lookup_insert_eq.
Qed.

Lemma truncation_leaves_cursor_at_zero_witness :
  NoDup (Tail.getFiles (tailer_at 500)) /\
  map_get app_log (Tail.files (tailer_at 500)) = Some 500 /\
  statSync (disk_with rotated_log) app_log = Stats 80 /\
  map_get app_log
    (Tail.files (fst (Tail.tick (disk_with rotated_log) (tailer_at 500)))) =
    Some 0 /\
  Watcher.filePositions (watcher_at 500) !! app_log = Some 500 /\
  Watcher.filePositions
    (fst (Watcher.notice (disk_with rotated_log) (watcher_at 500) app_log))
    !! app_log = Some 0.
Proof.
  assert (NoDup (Tail.getFiles (tailer_at 500))) as Hnd
    by (repeat constructor; by intros ?%elem_of_nil).
  split; [exact Hnd|]. split; [reflexivity|]. split; [reflexivity|].
  split.
  - exact (proj1 (proj2 (proj1 truncation_leaves_cursor_at_zero
                           (disk_with rotated_log) (tailer_at 500) app_log
                           Hnd eq_refl eq_refl))).
  - split; [reflexivity|].
    exact (proj1 (proj2 (proj2 truncation_leaves_cursor_at_zero
                           (disk_with rotated_log) (watcher_at 500) app_log
                           eq_refl eq_refl))).
Defined.

(** The same on [rotated_log]: after the rotation the two lines of the new
    file are emitted by one tick, and again by the next. *)
Example rotation_emits_twice :
  Tail.tick (disk_with rotated_log) (tailer_at 500) =
    (tailer_at 0,
     [Tail.Line {| Tail.file := app_log; Tail.line := js "fresh start";
                   Tail.lineNumber := 1 |};
      Tail.Line {| Tail.file := app_log; Tail.line := replicate 67 114%N;
                   Tail.lineNumber := 2 |}]) /\
  Tail.tick (disk_with rotated_log) (tailer_at 0) =
    (tailer_at 80,
     [Tail.Line {| Tail.file := app_log; Tail.line := js "fresh start";
                   Tail.lineNumber := 1 |};
      Tail.Line {| Tail.file := app_log; Tail.line := replicate 67 114%N;
                   Tail.lineNumber := 2 |}]) /\
  snd (Watcher.notice (disk_with rotated_log) (watcher_at 500) app_log) =
    snd (Watcher.notice (disk_with rotated_log) (watcher_at 0) app_log) /\
  watcher_lines
    (snd (Watcher.notice (disk_with rotated_log) (watcher_at 0) app_log)) =
    [js "fresh start"; replicate 67 114%N].
Proof. by vm_compute. Qed.

(** ** Read errors *)

(** C8 does not hold as stated. [app.log] has 620 bytes, its cursor is 500,
    and the stream on [500, 620) fails with [EIO] after one chunk. The
    ['error'] is emitted, but the cursor is 620 after the tick, as it is
    after the watcher's notice: the range is not read again. *)
Lemma cursor_advanced_despite_read_error :
  Tail.tick (failing_disk 620 (ErrnoException "EIO")) (tailer_at 500) =
    (tailer_at 620, [Tail.Error (ErrnoException "EIO")]) /\
  map_get app_log
    (Tail.files
       (fst (Tail.tick (failing_disk 620 (ErrnoException "EIO"))
               (tailer_at 500)))) <> Some 500 /\
  snd (Watcher.notice (failing_disk 620 (ErrnoException "EIO"))
         (watcher_at 500) app_log) = [Watcher.Error (ErrnoException "EIO")] /\
  Watcher.filePositions
    (fst (Watcher.notice (failing_disk 620 (ErrnoException "EIO"))
            (watcher_at 500) app_log)) !! app_log = Some 620.
Proof. by vm_compute. Qed.

(** C8, amended. When the stream of a delta read on [cursor, size) fails,
    the ['error'] event is emitted, but the cursor was already set to the
    size when the stream was opened and stays there; a further check at the
    same size opens no stream on the file, so the range is not retried. *)
Theorem read_error_keeps_advanced_cursor (w : World) (f : string)
    (pos size : Z) (e : error) :
  0 <= pos < size ->
  (forall t,
     NoDup (Tail.getFiles t) ->
     map_get f (Tail.files t) = Some pos ->
     statSync w f = Stats size ->
     finish (stream_of w {| rq_path := f; rq_start := pos;
                            rq_end := Some (size - 1) |}) = StreamError e ->
     Tail.Error e ∈ snd (Tail.tick w t) /\
     map_get f (Tail.files (fst (Tail.tick w t))) = Some size /\
     requests_of f
       (Tail.opened (Tail.checkForNewContent w (fst (Tail.tick w t)))) = []) /\
  (forall t,
     Watcher.filePositions t !! resolve w f = Some pos ->
     statSync w (resolve w f) = Stats size ->
     finish (stream_of w {| rq_path := resolve w f; rq_start := pos;
                            rq_end := Some (size - 1) |}) = StreamError e ->
     Watcher.Error e ∈ snd (Watcher.notice w t f) /\
     Watcher.filePositions (fst (Watcher.notice w t f)) !! resolve w f =
       Some size /\
     snd (Watcher.handleFileChange w (fst (Watcher.notice w t f)) f) = []).
Proof.
  intros Hlt. split.
  - intros t Hnd Hget Hstat Hfail.
    destruct (tick_grown w t f pos size Hnd Hget Hstat Hlt) as (H1 & _ & H2).
    split_and!; [|done|].
    + unfold Tail.tick. cbn [snd]. apply elem_of_app. right.
      eapply drain_elem_of; [by eapply requests_of_elem_of|].
      rewrite tail_run_stream_eq. cbv zeta. cbn [rq_path]. rewrite Hfail.
      apply elem_of_app. right. by left.
    + by apply (tick_unchanged w _ f size (tick_NoDup w t Hnd) H2 Hstat).
  - intros t Hget Hstat Hfail. unfold Watcher.notice.
    rewrite (handleFileChange_grown w t f pos size) by done.
    cbn [fst snd]. split_and!.
    + unfold Watcher.drain. simpl. rewrite app_nil_r.
      rewrite watcher_run_stream_eq. cbv zeta. rewrite Hfail.
      apply elem_of_app. right. by left.
    + apply lookup_insert_eq.
    + by rewrite (handleFileChange_unchanged w _ f size)
        by (done || apply lookup_insert_eq).
Qed.

Lemma read_error_keeps_advanced_cursor_witness :
  0 <= 500 < 620 /\
  NoDup (Tail.getFiles (tailer_at 500)) /\
  map_get app_log (Tail.files (tailer_at 500)) = Some 500 /\
  statSync (failing_disk 620 (ErrnoException "EIO")) app_log = Stats 620 /\
  finish (stream_of (failing_disk 620 (ErrnoException "EIO"))
            {| rq_path := app_log; rq_start := 500; rq_end := Some (620 - 1) |})
    = StreamError (ErrnoException "EIO") /\
  (Tail.Error (ErrnoException "EIO")
     ∈ snd (Tail.tick (failing_disk 620 (ErrnoException "EIO")) (tailer_at 500))
   /\
   map_get app_log
     (Tail.files
        (fst (Tail.tick (failing_disk 620 (ErrnoException "EIO"))
                (tailer_at 500)))) = Some 620 /\
   requests_of app_log
     (Tail.opened
        (Tail.checkForNewContent (failing_disk 620 (ErrnoException "EIO"))
           (fst (Tail.tick (failing_disk 620 (ErrnoException "EIO"))
                   (tailer_at 500))))) = []).
Proof.
  assert (NoDup (Tail.getFiles (tailer_at 500))) as Hnd
    by (repeat constructor; by intros ?%elem_of_nil).
  split; [lia|]. split; [exact Hnd|]. do 3 (split; [reflexivity|]).
  exact (proj1 (read_error_keeps_advanced_cursor
                  (failing_disk 620 (ErrnoException "EIO")) app_log 500 620
                  (ErrnoException "EIO") ltac:(lia))
           (tailer_at 500) Hnd eq_refl eq_refl eq_refl).
Defined.

(** ** The watcher's list of files *)

Lemma indexOf_absent x l : x ∉ l -> Watcher.indexOf x l = -1.
Proof.
  intros H. unfold Watcher.indexOf.
  destruct (list_find _ l) as [[i y]|] eqn:E; [|done].
  apply list_find_Some in E as (Hi & -> & _).
  by apply list_elem_of_lookup_2 in Hi.
Qed.

Lemma indexOf_present x l :
  x ∈ l -> exists i, Watcher.indexOf x l = Z.of_nat i /\ l !! i = Some x.
Proof.
  intros H. unfold Watcher.indexOf.
  destruct (list_find_elem_of (fun y => y = x) l x H eq_refl) as [[i y] E].
  rewrite E. apply list_find_Some in E as (Hi & -> & _). by exists i.
Qed.

Lemma addFile_present w t f :
  resolve w f ∈ Watcher.files t -> Watcher.addFile w t f = t.
Proof.
  intros H. unfold Watcher.addFile, Watcher.includes.
  by rewrite bool_decide_eq_true_2.
Qed.

Lemma removeFile_absent w t f :
  resolve w f ∉ Watcher.files t -> Watcher.removeFile w t f = t.
Proof.
  intros H. unfold Watcher.removeFile. by rewrite indexOf_absent.
Qed.

Lemma addFile_NoDup w t f :
  NoDup (Watcher.files t) -> NoDup (Watcher.files (Watcher.addFile w t f)).
Proof.
  intros H. unfold Watcher.addFile, Watcher.includes.
  destruct (bool_decide_reflect (resolve w f ∈ Watcher.files t)); [done|].
  simpl. apply NoDup_app. split_and!; [done | | apply NoDup_singleton].
  by intros x Hx ->%list_elem_of_singleton.
Qed.

Lemma removeFile_NoDup w t f :
  NoDup (Watcher.files t) -> NoDup (Watcher.files (Watcher.removeFile w t f)).
Proof.
  intros H. unfold Watcher.removeFile.
  destruct (negb _); [|done]. simpl.
  apply (sublist_NoDup _ _ H), sublist_delete.
Qed.

Lemma removeFile_gone w t f :
  NoDup (Watcher.files t) ->
  resolve w f ∉ Watcher.files (Watcher.removeFile w t f).
Proof.
  intros Hnd. destruct (decide (resolve w f ∈ Watcher.files t)) as [Hin|Hout].
  - unfold Watcher.removeFile.
    destruct (indexOf_present _ _ Hin) as (i & -> & Hi).
    replace (Z.of_nat i =? -1) with false by (symmetry; apply Z.eqb_neq; lia).
    simpl. unfold Watcher.splice1. rewrite Nat2Z.id.
    intros (j & Hj)%list_elem_of_lookup_1.
    destruct (decide (j < i)%nat).
    + rewrite list_lookup_delete_lt in Hj by done.
      assert (j = i) by (by eapply NoDup_lookup). lia.
    + rewrite list_lookup_delete_ge in Hj by lia.
      assert (S j = i) by (by eapply NoDup_lookup). lia.
  - by rewrite removeFile_absent.
Qed.

(** Used as a set, the list stays one: [addFile] and [removeFile] keep a
    list without duplicates so, do nothing on a path present, respectively
    absent, and [getFiles] is the list. *)
Lemma tracked_list_invariant w t f :
  NoDup (Watcher.files t) ->
  NoDup (Watcher.getFiles (Watcher.addFile w t f)) /\
  NoDup (Watcher.getFiles (Watcher.removeFile w t f)) /\
  (resolve w f ∈ Watcher.files t -> Watcher.addFile w t f = t) /\
  (resolve w f ∉ Watcher.files t -> Watcher.removeFile w t f = t) /\
  resolve w f ∈ Watcher.getFiles (Watcher.addFile w t f) /\
  resolve w f ∉ Watcher.getFiles (Watcher.removeFile w t f).
Proof.
  intros H. split_and!.
  - by apply addFile_NoDup.
  - by apply removeFile_NoDup.
  - apply addFile_present.
  - apply removeFile_absent.
  - unfold Watcher.getFiles, Watcher.addFile, Watcher.includes.
    destruct (bool_decide_reflect (resolve w f ∈ Watcher.files t)); [done|].
    simpl. apply elem_of_app. right. by left.
  - by apply removeFile_gone.
Qed.

(** C10, on the code. The constructor maps
    [path.resolve] over its argument and stores the result as it is, so a
    path given twice is tracked twice, though [addFile] refuses a path
    already present. [getFiles] then lists the path twice, and [removeFile]
    takes out the first occurrence only: the path is unwatched and its
    cursor deleted, yet [getFiles] still lists it. *)
Theorem constructor_keeps_duplicate_paths :
  Watcher.getFiles
    (Watcher.new_LogWatcher (disk_with []) [app_log; app_log]) =
    [app_log; app_log] /\
  ~ NoDup (Watcher.getFiles
             (Watcher.new_LogWatcher (disk_with []) [app_log; app_log])) /\
  Watcher.addFile (disk_with [])
    (Watcher.new_LogWatcher (disk_with []) [app_log]) app_log =
    Watcher.new_LogWatcher (disk_with []) [app_log] /\
  Watcher.getFiles
    (Watcher.removeFile (disk_with [])
       (Watcher.new_LogWatcher (disk_with []) [app_log; app_log]) app_log) =
    [app_log] /\
  Watcher.watcher
    (Watcher.removeFile (disk_with [])
       (Watcher.new_LogWatcher (disk_with []) [app_log; app_log]) app_log) =
    Some [Watcher.watch [app_log; app_log]; Watcher.unwatch app_log].
Proof.
  split_and!; try by vm_compute.
  intros [H _]%NoDup_cons. apply H. by left.
Qed.

(** ** The scenarios of the specification, run *)

(** A file holding the lines [a] and [b] is tailed with the default ten
    lines, then the line [c] is appended: two initial line events, the
    cursor at 4, then one line event and the cursor at 6. *)
Example tail_then_append :
  Tail.tail (disk_with (bytes_of ("a" +:+ lf +:+ "b" +:+ lf)))
    Tail.new_LogTailer app_log
    {| Tail.lines := None; Tail.follow := Some true |} =
    (tailer_at 4,
     [Tail.Line {| Tail.file := app_log; Tail.line := js "a";
                   Tail.lineNumber := 1 |};
      Tail.Line {| Tail.file := app_log; Tail.line := js "b";
                   Tail.lineNumber := 2 |}],
     None) /\
  Tail.tick
    (disk_with (bytes_of ("a" +:+ lf +:+ "b" +:+ lf +:+ "c" +:+ lf)))
    (tailer_at 4) =
    (tailer_at 6,
     [Tail.Line {| Tail.file := app_log; Tail.line := js "c";
                   Tail.lineNumber := 1 |}]).
Proof. by vm_compute. Qed.

(** A line cut by a chunk boundary is put back together, and a blank line
    between two chunks is dropped. *)
Example split_across_chunks :
  split_chunks [] [js "ab"; js ("c" +:+ lf +:+ "  " +:+ lf +:+ "d"); js lf] =
    ([js "abc"; js "  "; js "d"], []) /\
  tail_lines
    (Tail.run_stream app_log
       (chunked [js "ab"; js ("c" +:+ lf +:+ "  " +:+ lf +:+ "d"); js lf])) =
    [js "abc"; js "d"].
Proof. by vm_compute. Qed.

(** A file that vanished is dropped from the map with one ['fileRemoved']. *)
Example vanished_file_removed :
  Tail.tick (disk_world ∅) (tailer_at 4) =
    ({| Tail.files := []; Tail.following := true; Tail.pollInterval := true |},
     [Tail.FileRemoved app_log]).
Proof. by vm_compute. Qed.

(** The watcher over the life of a file: added at 4 bytes, changed to 6,
    removed. *)
Example watcher_add_change_unlink :
  Watcher.handleFileAdd (disk_with (bytes_of ("a" +:+ lf +:+ "b" +:+ lf)))
    (Watcher.new_LogWatcher (disk_with []) [app_log]) app_log =
    (watcher_at 4,
     [Watcher.FileAdded {| Watcher.file := app_log; Watcher.type := Watcher.add;
                           Watcher.position := Some 4 |};
      Watcher.Change {| Watcher.file := app_log; Watcher.type := Watcher.add;
                        Watcher.position := Some 4 |}]) /\
  snd (Watcher.notice
         (disk_with (bytes_of ("a" +:+ lf +:+ "b" +:+ lf +:+ "c" +:+ lf)))
         (watcher_at 4) app_log) =
    [Watcher.Line {| Watcher.line_file := app_log; Watcher.line := js "c" |}] /\
  Watcher.filePositions
    (fst (Watcher.handleFileRemove (disk_world ∅) (watcher_at 6) app_log))
    !! app_log = None.
Proof. by vm_compute. Qed.

(** * Further properties of the code *)

(** ** Delta reads: chunking, numbering, line feeds *)

(** X1. What a delta read emits does not depend on how the stream cuts the
    range into chunks: two runs that deliver the same text and finish the
    same way make either driver emit the same events, numbers included. *)
Theorem run_stream_chunking (f : string) (cs1 cs2 : list jsstring)
    (fin : stream_finish) :
  concat cs1 = concat cs2 ->
  Tail.run_stream f {| chunks := cs1; finish := fin |} =
    Tail.run_stream f {| chunks := cs2; finish := fin |} /\
  Watcher.run_stream f {| chunks := cs1; finish := fin |} =
    Watcher.run_stream f {| chunks := cs2; finish := fin |}.
Proof.
  intros E. rewrite !tail_run_stream_eq, !watcher_run_stream_eq. simpl.
  by rewrite E.
Qed.

Lemma run_stream_chunking_witness :
  concat [js "ab"; js ("c" +:+ lf +:+ "d")] =
    concat [js "a"; js "bc"; js lf; js "d"] /\
  Tail.run_stream app_log
    {| chunks := [js "ab"; js ("c" +:+ lf +:+ "d")]; finish := End |} =
    Tail.run_stream app_log
      {| chunks := [js "a"; js "bc"; js lf; js "d"]; finish := End |} /\
  Watcher.run_stream app_log
    {| chunks := [js "ab"; js ("c" +:+ lf +:+ "d")]; finish := End |} =
    Watcher.run_stream app_log
      {| chunks := [js "a"; js "bc"; js lf; js "d"]; finish := End |}.
Proof.
  split; [reflexivity|].
  apply (run_stream_chunking app_log [js "ab"; js ("c" +:+ lf +:+ "d")]
           [js "a"; js "bc"; js lf; js "d"] End).
  reflexivity.
Defined.

Lemma tail_line_numbers_app l1 l2 :
  tail_line_numbers (l1 ++ l2) = tail_line_numbers l1 ++ tail_line_numbers l2.
Proof. apply omap_app. Qed.

Lemma tail_emit_lines_numbers f n ls :
  let k := length (filter (fun l => blank l = false) ls) in
  fst (Tail.emit_lines f n ls) = n + Z.of_nat k /\
  tail_line_numbers (snd (Tail.emit_lines f n ls)) =
    (fun i => n + Z.of_nat i + 1) <$> seq 0 k.
Proof.
  revert n. induction ls as [|l ls IH]; intros n; simpl.
  - split; [lia | done].
  - rewrite truthy_trim, filter_cons. destruct (blank l); simpl.
    + apply IH.
    + destruct (IH (n + 1)) as [H1 H2].
      destruct (Tail.emit_lines f (n + 1) ls) as [m log]. simpl in *.
      split; [lia|]. rewrite H2. f_equal; [lia|].
      rewrite <- fmap_S_seq, <- list_fmap_compose.
      apply list_fmap_ext. intros _ i _. simpl. lia.
Qed.

Lemma one_to_S k : one_to (S k) = one_to k ++ [Z.of_nat k + 1].
Proof. unfold one_to. by rewrite seq_S, fmap_app. Qed.

Lemma tail_line_numbers_initial f (g : nat -> Z) ls :
  tail_line_numbers
    (imap (fun i l => Tail.Line {| Tail.file := f; Tail.line := l;
                                   Tail.lineNumber := g i |}) ls) =
    g <$> seq 0 (length ls).
Proof.
  revert g. induction ls as [|l ls IH]; intros g; [done|].
  rewrite imap_cons. simpl. f_equal.
  rewrite <- fmap_S_seq, <- list_fmap_compose. apply (IH (g ∘ S)).
Qed.

(** X2. The [lineNumber] of the line events of one delta read counts the
    events of that read, not the lines of the file: the numbers are 1, 2,
    ... in order, and blank lines take no number. The initial lines that
    [tail] emits are numbered the same way. *)
Theorem line_numbers_count_events :
  (forall f run,
     tail_line_numbers (Tail.run_stream f run) =
       one_to (length (tail_lines (Tail.run_stream f run)))) /\
  (forall w t f o,
     tail_line_numbers (snd (fst (Tail.tail w t f o))) =
       one_to (length (tail_lines (snd (fst (Tail.tail w t f o)))))).
Proof.
  split.
  - intros f run. rewrite tail_run_stream_eq. cbv zeta.
    rewrite tail_line_numbers_app, tail_lines_app, length_app, tail_lines_emit.
    destruct (tail_emit_lines_numbers f 0 (complete_lines (concat (chunks run))))
      as [H1 H2].
    cbv zeta in H1, H2. rewrite H2.
    set (k := length (filter _ _)) in *.
    destruct (finish run); [destruct (blank _)|]; simpl;
      rewrite ?Nat.add_0_r, ?app_nil_r; try done.
    rewrite Nat.add_1_r, one_to_S, H1. done.
  - intros w t f o. unfold Tail.tail.
    destruct (negb _); [done|].
    destruct (Tail.readLastLines _ _ _) as [e|ls]; [done|].
    assert (tail_line_numbers (Tail.emit_initial (resolve w f) ls) =
              one_to (length (tail_lines (Tail.emit_initial (resolve w f) ls))))
      as H.
    { rewrite tail_lines_emit_initial. unfold Tail.emit_initial.
      apply (tail_line_numbers_initial _ (fun i => Z.of_nat i + 1)). }
    destruct (statSync _ _); [destruct (default false _)|]; simpl;
      rewrite ?tail_line_numbers_app, ?tail_lines_app, ?app_nil_r; done.
Qed.

Lemma Forall_filter_of {A} (P Q : A -> Prop) `{!forall x, Decision (Q x)} l :
  Forall P l -> Forall P (filter Q l).
Proof.
  rewrite !Forall_forall. intros Hall x [_ Hx]%list_elem_of_filter.
  by apply Hall.
Qed.

(** X3. No line that the code hands out holds a line feed: not the line
    events of a delta read of either driver, not the lines returned by
    [readLastLines], not the initial line events of [tail]. *)
Theorem lines_hold_no_line_feed :
  (forall f run,
     Forall (fun l => LF ∉ l) (tail_lines (Tail.run_stream f run))) /\
  (forall f run,
     Forall (fun l => LF ∉ l) (watcher_lines (Watcher.run_stream f run))) /\
  (forall w f n,
     Forall (fun l => LF ∉ l)
       (match Tail.readLastLines w f n with inr ls => ls | inl _ => [] end)) /\
  (forall w t f o,
     Forall (fun l => LF ∉ l) (tail_lines (snd (fst (Tail.tail w t f o))))).
Proof.
  assert (forall s fin,
            Forall (fun l => LF ∉ l)
              (complete_lines s ++
               match fin with End => [trailing s] | StreamError _ => [] end))
    as Hfrag.
  { intros s fin. apply Forall_app. split; [apply complete_lines_no_lf|].
    destruct fin; [|done]. constructor; [apply trailing_no_lf | done]. }
  assert (forall w f n ls,
            Tail.readLastLines w f n = inr ls -> Forall (fun l => LF ∉ l) ls)
    as Hlast.
  { intros w f n ls. rewrite readLastLines_eq.
    destruct (statSync w f) as [size|e]; [|done].
    destruct (size =? 0); [by intros [= <-]|]. cbv zeta.
    destruct (finish _); [|done]. intros [= <-].
    apply Forall_slice, Forall_filter_of, split_lf_no_lf. }
  split_and!.
  - intros. rewrite tail_lines_run_stream. by apply Forall_filter_of.
  - intros. rewrite watcher_lines_run_stream. by apply Forall_filter_of.
  - intros. destruct (Tail.readLastLines w f n) eqn:E; [done|]. by eapply Hlast.
  - intros. unfold Tail.tail. destruct (existsSync _ _); simpl; [|done].
    destruct (Tail.readLastLines _ _ _) as [e|ls] eqn:E; [done|].
    apply Hlast in E.
    destruct (statSync _ _); [destruct (default false _)|]; simpl;
      rewrite ?tail_lines_app, ?tail_lines_emit_initial, ?app_nil_r; done.
Qed.

(** ** Starting a tail: what it leaves behind *)

(** X4. [tail] emits an ['error'] exactly when it rejects: the error is the
    last event, after the initial lines already emitted if any, and the
    tailer is left as it was, cursors, [following] and timer. When it does
    not reject, the events are the initial lines alone. *)
Theorem tail_error_iff_rejected (w : World) (t : Tail.LogTailer) (f : string)
    (o : Tail.TailOptions) :
  exists ls,
    match snd (Tail.tail w t f o) with
    | Some e =>
        fst (fst (Tail.tail w t f o)) = t /\
        snd (fst (Tail.tail w t f o)) =
          Tail.emit_initial (resolve w f) ls ++ [Tail.Error e]
    | None =>
        snd (fst (Tail.tail w t f o)) = Tail.emit_initial (resolve w f) ls
    end.
Proof.
  unfold Tail.tail. destruct (negb _); [by exists []|].
  destruct (Tail.readLastLines _ _ _) as [e|ls]; [by exists []|].
  exists ls. destruct (statSync _ _); [|done].
  by destruct (default false _).
Qed.


(** X5. When [tail] does not reject, the cursor of the file is the size
    that [statSync] reports, the cursors of the other files are untouched,
    the events are the lines that [readLastLines] returned, and the tailer
    follows if it was asked to or did already. *)
Theorem tail_success (w : World) (t : Tail.LogTailer) (f : string)
    (o : Tail.TailOptions) :
  snd (Tail.tail w t f o) = None ->
  exists size ls,
    statSync w (resolve w f) = Stats size /\
    Tail.readLastLines w (resolve w f) (default 10 (Tail.lines o)) = inr ls /\
    snd (fst (Tail.tail w t f o)) = Tail.emit_initial (resolve w f) ls /\
    map_get (resolve w f) (Tail.files (fst (fst (Tail.tail w t f o)))) =
      Some size /\
    (forall g, g <> resolve w f ->
       map_get g (Tail.files (fst (fst (Tail.tail w t f o)))) =
         map_get g (Tail.files t)) /\
    Tail.following (fst (fst (Tail.tail w t f o))) =
      default false (Tail.follow o) || Tail.following t.
Proof.
  unfold Tail.tail. destruct (negb _); [done|].
  destruct (Tail.readLastLines _ _ _) as [e|ls]; [done|].
  destruct (statSync _ _) as [size|e]; [|done]. intros _.
  exists size, ls.
  destruct (default false _); simpl;
    (split_and!; [done | done | done | apply map_get_set_eq | | done]);
    intros g Hg; by apply map_get_set_ne.
Qed.

Lemma tail_success_witness :
  snd (Tail.tail (disk_with (bytes_of ("a" +:+ lf +:+ "b" +:+ lf)))
         Tail.new_LogTailer app_log
         {| Tail.lines := None; Tail.follow := Some true |}) = None /\
  exists size ls,
    statSync (disk_with (bytes_of ("a" +:+ lf +:+ "b" +:+ lf)))
      (resolve (disk_with (bytes_of ("a" +:+ lf +:+ "b" +:+ lf))) app_log) =
      Stats size /\
    Tail.readLastLines (disk_with (bytes_of ("a" +:+ lf +:+ "b" +:+ lf)))
      (resolve (disk_with (bytes_of ("a" +:+ lf +:+ "b" +:+ lf))) app_log)
      (default 10 (Tail.lines {| Tail.lines := None;
                                 Tail.follow := Some true |})) = inr ls.
Proof.
  split; [reflexivity|].
  destruct (tail_success (disk_with (bytes_of ("a" +:+ lf +:+ "b" +:+ lf)))
              Tail.new_LogTailer app_log
              {| Tail.lines := None; Tail.follow := Some true |} eq_refl)
    as (size & ls & H1 & H2 & _).
  by exists size, ls.
Defined.



(** ** The polling loop: files that vanish, fail or empty *)

Lemma map_get_is_None k m : map_get k m = None <-> k ∉ m.*1.
Proof.
  split; [|apply map_get_None].
  induction m as [|[k0 v0] m IH]; [by intros _ ?%elem_of_nil|].
  cbn [map_get]. rewrite fmap_cons. destruct (decide (k0 = k)); [done|].
  intros H [?|?]%elem_of_cons; [simpl in *; congruence | by apply IH].
Qed.

Lemma map_get_delete_eq k m : NoDup m.*1 -> map_get k (map_delete k m) = None.
Proof.
  induction m as [|[k0 v0] m IH]; [done|]. rewrite fmap_cons.
  intros [Hk0 Hm]%NoDup_cons. cbn [map_delete].
  destruct (decide (k0 = k)) as [<-|Hne].
  - by apply map_get_None.
  - cbn [map_get]. rewrite decide_False by done. by apply IH.
Qed.

Lemma checkForNewContent_at_NoDup w t f pos :
  NoDup (Tail.getFiles t) ->
  map_get f (Tail.files t) = Some pos ->
  exists p,
    NoDup (Tail.getFiles (Tail.tailer p)) /\
    map_get f (Tail.files (Tail.tailer p)) = Some pos /\
    tail_events_of f (Tail.log p) = [] /\
    requests_of f (Tail.opened p) = [] /\
    view_eq f (Tail.checkForNewContent w t) (Tail.check_file w p (f, pos)).
Proof.
  intros Hnd Hget. unfold Tail.checkForNewContent.
  destruct (map_get_split _ _ _ Hget) as (m1 & m2 & E & Hm1).
  pose proof Hnd as Hnd'. unfold Tail.getFiles in Hnd'.
  rewrite E, fmap_app, fmap_cons in Hnd'.
  apply NoDup_app in Hnd' as (_ & _ & [Hm2 _]%NoDup_cons).
  rewrite E, foldl_app. simpl.
  set (p0 := {| Tail.tailer := t; Tail.log := []; Tail.opened := [] |}).
  destruct (fold_check_file_other w f m1 p0 Hm1) as (H1 & H2 & H3).
  exists (foldl (Tail.check_file w) p0 m1). split_and!.
  - by apply fold_check_file_NoDup.
  - by rewrite H1.
  - by rewrite H2.
  - by rewrite H3.
  - by apply fold_check_file_other.
Qed.

Lemma tail_events_of_one f ev :
  tail_events_of f [ev] =
    if decide (tail_event_file ev = Some f) then [ev] else [].
Proof. unfold tail_events_of. by rewrite filter_cons. Qed.

(** A file that is not in the map is left alone by a tick. *)
Lemma tick_absent w t f :
  f ∉ Tail.getFiles t ->
  requests_of f (Tail.opened (Tail.checkForNewContent w t)) = [] /\
  tail_events_of f (snd (Tail.tick w t)) = [] /\
  f ∉ Tail.getFiles (fst (Tail.tick w t)).
Proof.
  intros H. unfold Tail.tick, Tail.checkForNewContent. cbn [fst snd].
  destruct (fold_check_file_other w f (Tail.files t)
              {| Tail.tailer := t; Tail.log := []; Tail.opened := [] |} H)
    as (H1 & H2 & H3). simpl in H1, H2, H3.
  rewrite tail_events_of_app, drain_events_of, H2, H3. split_and!; try done.
  apply map_get_is_None. rewrite H1. by apply map_get_is_None.
Qed.

(** X7. A tracked file whose [statSync] throws [ENOENT] is dropped from the
    map at the tick: the one event of the tick that names it is
    ['fileRemoved'], no stream is opened on it, and at later ticks, whatever
    the file system then holds, nothing is opened or emitted for it: a file
    that comes back is not picked up again. *)
Theorem vanished_file_is_forgotten (w : World) (t : Tail.LogTailer)
    (f : string) (pos : Z) (e : error) :
  NoDup (Tail.getFiles t) ->
  map_get f (Tail.files t) = Some pos ->
  statSync w f = StatThrows e ->
  error_code e = Some "ENOENT" ->
  tail_events_of f (snd (Tail.tick w t)) = [Tail.FileRemoved f] /\
  requests_of f (Tail.opened (Tail.checkForNewContent w t)) = [] /\
  (f ∉ Tail.getFiles (fst (Tail.tick w t))) /\
  (forall w',
     requests_of f
       (Tail.opened (Tail.checkForNewContent w' (fst (Tail.tick w t)))) = [] /\
     tail_events_of f (snd (Tail.tick w' (fst (Tail.tick w t)))) = []).
Proof.
  intros Hnd Hget Hstat Hcode.
  destruct (checkForNewContent_at_NoDup w t f pos Hnd Hget)
    as (p & Hp0 & Hp1 & Hp2 & Hp3 & (V1 & V2 & V3)).
  assert (Tail.check_file w p (f, pos) =
            {| Tail.tailer :=
                 Tail.set_files (Tail.tailer p)
                   (map_delete f (Tail.files (Tail.tailer p)));
               Tail.log := Tail.log p ++ [Tail.FileRemoved f];
               Tail.opened := Tail.opened p |}) as E.
  { unfold Tail.check_file, Tail.catch. rewrite Hstat.
    by rewrite decide_True. }
  rewrite E in V1, V2, V3. simpl in V1, V2, V3.
  rewrite map_get_delete_eq in V1 by done.
  rewrite tail_events_of_app, Hp2, tail_events_of_one in V2.
  rewrite decide_True in V2 by done. rewrite Hp3 in V3.
  assert (f ∉ Tail.getFiles (fst (Tail.tick w t))) as Hout
    by (by apply map_get_is_None).
  assert (tail_events_of f (snd (Tail.tick w t)) = [Tail.FileRemoved f]) as Hev.
  { unfold Tail.tick. cbn [snd].
    by rewrite tail_events_of_app, drain_events_of, V2, V3. }
  split_and!; try done.
  intros w'. by destruct (tick_absent w' _ f Hout) as (? & ? & _).
Qed.

Lemma vanished_file_is_forgotten_witness :
  NoDup (Tail.getFiles (tailer_at 4)) /\
  map_get app_log (Tail.files (tailer_at 4)) = Some 4 /\
  statSync (disk_world ∅) app_log = StatThrows (ErrnoException "ENOENT") /\
  tail_events_of app_log (snd (Tail.tick (disk_world ∅) (tailer_at 4))) =
    [Tail.FileRemoved app_log] /\
  requests_of app_log
    (Tail.opened (Tail.checkForNewContent (disk_world ∅) (tailer_at 4))) = [] /\
  (app_log ∉ Tail.getFiles (fst (Tail.tick (disk_world ∅) (tailer_at 4)))) /\
  (forall w',
     requests_of app_log
       (Tail.opened
          (Tail.checkForNewContent w'
             (fst (Tail.tick (disk_world ∅) (tailer_at 4))))) = [] /\
     tail_events_of app_log
       (snd (Tail.tick w' (fst (Tail.tick (disk_world ∅) (tailer_at 4))))) =
       []).
Proof.
  assert (NoDup (Tail.getFiles (tailer_at 4))) as Hnd
    by (repeat constructor; by intros ?%elem_of_nil).
  split; [exact Hnd|]. split; [reflexivity|]. split; [reflexivity|].
  exact (vanished_file_is_forgotten (disk_world ∅) (tailer_at 4) app_log 4
           (ErrnoException "ENOENT") Hnd eq_refl eq_refl eq_refl).
Defined.

(** X8. When [statSync] throws anything but [ENOENT] on a tracked file, the
    tick emits that ['error'], opens no stream on the file and keeps the file
    and its cursor, so the next tick tries again. The watcher, for any
    error of [statSync], [ENOENT] included, emits the ['error'] and changes
    nothing. *)
Theorem stat_failure_keeps_cursor (w : World) (f : string) (e : error) :
  (forall t pos,
     NoDup (Tail.getFiles t) ->
     map_get f (Tail.files t) = Some pos ->
     statSync w f = StatThrows e ->
     error_code e <> Some "ENOENT" ->
     Tail.Error e ∈ snd (Tail.tick w t) /\
     tail_events_of f (snd (Tail.tick w t)) = [] /\
     requests_of f (Tail.opened (Tail.checkForNewContent w t)) = [] /\
     map_get f (Tail.files (fst (Tail.tick w t))) = Some pos) /\
  (forall t,
     statSync w (resolve w f) = StatThrows e ->
     Watcher.notice w t f = (t, [Watcher.Error e])).
Proof.
  split.
  - intros t pos Hnd Hget Hstat Hcode.
    assert (forall p, Tail.check_file w p (f, pos) =
              {| Tail.tailer := Tail.tailer p;
                 Tail.log := Tail.log p ++ [Tail.Error e];
                 Tail.opened := Tail.opened p |}) as E.
    { intros p. unfold Tail.check_file, Tail.catch. rewrite Hstat.
      by rewrite decide_False. }
    destruct (checkForNewContent_at w t f pos Hnd Hget)
      as (p & Hp1 & Hp2 & Hp3 & (V1 & V2 & V3)).
    rewrite E in V1, V2, V3. simpl in V1, V2, V3.
    rewrite tail_events_of_app, Hp2 in V2. rewrite Hp3 in V3.
    unfold Tail.tick. cbn [fst snd].
    rewrite tail_events_of_app, drain_events_of, V1, V2, V3.
    split_and!; try done.
    apply elem_of_app. left.
    unfold Tail.checkForNewContent, Tail.getFiles in *.
    destruct (map_get_split _ _ _ Hget) as (m1 & m2 & Em & _).
    rewrite Em, foldl_app. cbn [foldl]. rewrite E.
    generalize (foldl (Tail.check_file w)
                  {| Tail.tailer := t; Tail.log := []; Tail.opened := [] |} m1).
    intros q.
    assert (forall es q', Tail.Error e ∈ Tail.log q' ->
              Tail.Error e ∈ Tail.log (foldl (Tail.check_file w) q' es)) as Hmono.
    { induction es as [|[g posg] es IH]; intros q' Hq'; [done|].
      simpl. apply IH. unfold Tail.check_file, Tail.catch.
      destruct (statSync w g); [|destruct (decide _)]; simpl;
        repeat (match goal with
                | |- context [if ?b then _ else _] => destruct b
                | |- context [match ?x with inl _ => _ | inr _ => _ end] =>
                    destruct x
                end; simpl);
        try done; apply elem_of_app; by left. }
    apply Hmono. simpl. apply elem_of_app. right. by left.
  - intros t Hstat. unfold Watcher.notice, Watcher.handleFileChange.
    by rewrite Hstat.
Qed.

Lemma stat_failure_keeps_cursor_witness :
  NoDup (Tail.getFiles (tailer_at 4)) /\
  map_get app_log (Tail.files (tailer_at 4)) = Some 4 /\
  statSync (unreadable_disk (ErrnoException "EACCES")) app_log =
    StatThrows (ErrnoException "EACCES") /\
  error_code (ErrnoException "EACCES") <> Some "ENOENT" /\
  (Tail.Error (ErrnoException "EACCES")
     ∈ snd (Tail.tick (unreadable_disk (ErrnoException "EACCES")) (tailer_at 4))
   /\
   tail_events_of app_log
     (snd (Tail.tick (unreadable_disk (ErrnoException "EACCES")) (tailer_at 4)))
     = [] /\
   requests_of app_log
     (Tail.opened
        (Tail.checkForNewContent (unreadable_disk (ErrnoException "EACCES"))
           (tailer_at 4))) = [] /\
   map_get app_log
     (Tail.files
        (fst (Tail.tick (unreadable_disk (ErrnoException "EACCES"))
                (tailer_at 4)))) = Some 4) /\
  Watcher.notice (unreadable_disk (ErrnoException "EACCES")) (watcher_at 4)
    app_log = (watcher_at 4, [Watcher.Error (ErrnoException "EACCES")]).
Proof.
  assert (NoDup (Tail.getFiles (tailer_at 4))) as Hnd
    by (repeat constructor; by intros ?%elem_of_nil).
  assert (error_code (ErrnoException "EACCES") <> Some "ENOENT") as Hcode
    by (by intros [=]).
  destruct (stat_failure_keeps_cursor (unreadable_disk (ErrnoException "EACCES"))
              app_log (ErrnoException "EACCES")) as [Htail Hwatch].
  split; [exact Hnd|]. split; [reflexivity|]. split; [reflexivity|].
  split; [exact Hcode|]. split.
  - exact (Htail (tailer_at 4) 4 Hnd eq_refl eq_refl Hcode).
  - exact (Hwatch (watcher_at 4) eq_refl).
Defined.

(** The shape of the map while the loop runs: the entries done, then those
    to do. *)
Lemma map_set_middle k v v' pre post :
  k ∉ pre.*1 ->
  map_set k v (pre ++ (k, v') :: post) = pre ++ (k, v) :: post.
Proof.
  induction pre as [|[k0 v0] pre IH]; intros H.
  - simpl. by rewrite decide_True.
  - rewrite fmap_cons in H. apply not_elem_of_cons in H as [Hne Hpre].
    simpl in *. rewrite decide_False by done. by rewrite IH.
Qed.

Lemma map_delete_middle k v' pre post :
  k ∉ pre.*1 ->
  map_delete k (pre ++ (k, v') :: post) = pre ++ post.
Proof.
  induction pre as [|[k0 v0] pre IH]; intros H.
  - simpl. by rewrite decide_True.
  - rewrite fmap_cons in H. apply not_elem_of_cons in H as [Hne Hpre].
    simpl in *. rewrite decide_False by done. by rewrite IH.
Qed.

Lemma check_file_files w p g pos :
  Tail.files (Tail.tailer (Tail.check_file w p (g, pos))) =
    (if stat_enoent w g
     then map_delete g (Tail.files (Tail.tailer p))
     else Tail.files (Tail.tailer p)) \/
  stat_enoent w g = false /\
  exists v,
    Tail.files (Tail.tailer (Tail.check_file w p (g, pos))) =
      map_set g v (Tail.files (Tail.tailer p)).
Proof.
  unfold Tail.check_file, stat_enoent, Tail.readNewContent, createReadStream,
    Tail.catch.
  destruct (statSync w g) as [size|e].
  - destruct (size <? pos).
    + right. split; [done|]. exists 0.
      by destruct (_ || _); simpl.
    + destruct (size >? pos); [|by left].
      destruct (_ || _); simpl; [by left|]. right. split; [done|]. by exists size.
  - left. destruct (decide _) as [Hc|Hc].
    + by rewrite bool_decide_eq_true_2.
    + by rewrite bool_decide_eq_false_2.
Qed.

Lemma fold_check_file_keys w es pre p :
  Tail.files (Tail.tailer p) = pre ++ es ->
  NoDup (pre ++ es).*1 ->
  Tail.getFiles (Tail.tailer (foldl (Tail.check_file w) p es)) =
    pre.*1 ++ filter (fun f => stat_enoent w f = false) es.*1.
Proof.
  revert pre p. induction es as [|[g pos] es IH]; intros pre p Hp Hnd.
  - simpl. unfold Tail.getFiles. by rewrite Hp, !app_nil_r.
  - assert (g ∉ pre.*1) as Hg.
    { rewrite fmap_app, fmap_cons in Hnd.
      apply NoDup_app in Hnd as (_ & Hd & _). intros Hin.
      apply (Hd g Hin). by left. }
    cbn [foldl]. rewrite fmap_cons, filter_cons. cbn [fst].
    destruct (check_file_files w p g pos) as [E|[Hne [v E]]].
    + destruct (stat_enoent w g) eqn:Hs.
      * rewrite decide_False by done.
        apply IH.
        -- by rewrite E, Hp, map_delete_middle.
        -- rewrite fmap_app, fmap_cons in Hnd. rewrite fmap_app.
           apply NoDup_app in Hnd as (H1 & H2 & [_ H3]%NoDup_cons).
           apply NoDup_app. split_and!; [done | | done].
           intros x Hx Hx'. apply (H2 x Hx). by right.
      * rewrite decide_True by done.
        rewrite (IH (pre ++ [(g, pos)])).
        -- by rewrite fmap_app, <- app_assoc.
        -- by rewrite E, Hp, <- app_assoc.
        -- by rewrite <- app_assoc.
    + rewrite Hne, decide_True by done.
      rewrite (IH (pre ++ [(g, v)])).
      * by rewrite fmap_app, <- app_assoc.
      * by rewrite E, Hp, map_set_middle, <- app_assoc.
      * rewrite <- app_assoc. simpl.
        by rewrite fmap_app, fmap_cons in Hnd |- *.
Qed.

(** X9. A tick never adds a file and never reorders the map: the tracked
    files after it are those whose [statSync] did not throw [ENOENT], in
    the order they had. *)
Theorem tick_tracked_files (w : World) (t : Tail.LogTailer) :
  NoDup (Tail.getFiles t) ->
  Tail.getFiles (fst (Tail.tick w t)) =
    filter (fun f => stat_enoent w f = false) (Tail.getFiles t).
Proof.
  intros Hnd. unfold Tail.tick, Tail.checkForNewContent. cbn [fst].
  by rewrite (fold_check_file_keys w (Tail.files t) []).
Qed.

Lemma tick_tracked_files_witness :
  NoDup (Tail.getFiles
           {| Tail.files := [("gone.log", 7); (app_log, 2)];
              Tail.following := true; Tail.pollInterval := true |}) /\
  Tail.getFiles
    (fst (Tail.tick (disk_with (bytes_of ("a" +:+ lf +:+ "b" +:+ lf)))
            {| Tail.files := [("gone.log", 7); (app_log, 2)];
               Tail.following := true; Tail.pollInterval := true |})) =
    filter (fun f => stat_enoent
                       (disk_with (bytes_of ("a" +:+ lf +:+ "b" +:+ lf))) f
                     = false)
      (Tail.getFiles
         {| Tail.files := [("gone.log", 7); (app_log, 2)];
            Tail.following := true; Tail.pollInterval := true |}).
Proof.
  assert (NoDup (Tail.getFiles
                   {| Tail.files := [("gone.log", 7); (app_log, 2)];
                      Tail.following := true; Tail.pollInterval := true |}))
    as Hnd.
  { apply NoDup_cons. split; [|repeat constructor; by intros ?%elem_of_nil].
    by intros [=]%list_elem_of_singleton. }
  split; [exact Hnd|].
  exact (tick_tracked_files _ _ Hnd).
Defined.

(** ** The polling loop: what it opens, and on what it depends *)

Lemma check_file_opened w p g pos :
  Tail.opened (Tail.check_file w p (g, pos)) = Tail.opened p \/
  exists size start,
    Tail.opened (Tail.check_file w p (g, pos)) =
      Tail.opened p ++
      [{| rq_path := g; rq_start := start; rq_end := Some (size - 1) |}] /\
    statSync w g = Stats size /\
    0 <= start <= size - 1 /\
    (pos < size /\ start = pos \/ size < pos /\ start = 0).
Proof.
  unfold Tail.check_file, Tail.readNewContent, createReadStream, Tail.catch.
  destruct (statSync w g) as [size|e]; [|left; by destruct (decide _)].
  cbn [rq_start rq_end].
  destruct (size <? pos) eqn:Hlt.
  - apply Z.ltb_lt in Hlt.
    destruct ((0 <? 0) || ((size - 1 <? 0) || (size - 1 <? 0))) eqn:Hbad;
      [by left|].
    right. exists size, 0. split_and!; [done | done | lia | | by right].
    apply orb_false_elim in Hbad as [_ [Hb _]%orb_false_elim]. lia.
  - apply Z.ltb_ge in Hlt. destruct (size >? pos) eqn:Hgt; [|by left].
    apply Z.gtb_lt in Hgt.
    destruct ((pos <? 0) || ((size - 1 <? 0) || (size - 1 <? pos))) eqn:Hbad;
      [by left|].
    right. exists size, pos.
    apply orb_false_elim in Hbad as [Hb1 [Hb2 Hb3]%orb_false_elim].
    split_and!; [done | done | lia | lia | by left].
Qed.

Lemma fold_check_file_opened w es p rq :
  rq ∈ Tail.opened (foldl (Tail.check_file w) p es) ->
  rq ∈ Tail.opened p \/
  exists pos size,
    (rq_path rq, pos) ∈ es /\
    statSync w (rq_path rq) = Stats size /\
    rq_end rq = Some (size - 1) /\
    0 <= rq_start rq <= size - 1 /\
    (pos < size /\ rq_start rq = pos \/ size < pos /\ rq_start rq = 0).
Proof.
  revert p. induction es as [|[g pos] es IH]; intros p Hin; [by left|].
  cbn [foldl] in Hin. apply IH in Hin as [Hin|(pos' & size & H1 & H2)].
  - destruct (check_file_opened w p g pos)
      as [E|(size & start & E & Hs & Hb & Hc)]; rewrite E in Hin; [by left|].
    apply elem_of_app in Hin as [Hin|Hrq%list_elem_of_singleton]; [by left|].
    right. exists pos, size. rewrite Hrq. simpl.
    split; [by left|]. split; [done|]. split; [done|].
    split; [exact Hb | exact Hc].
  - right. exists pos', size. split; [by right | done].
Qed.

(** X10. Every stream that a tick opens is on a tracked file whose
    [statSync] gave a size: it ends at the last byte of that size and starts
    at the cursor of the file if the file has grown, at 0 if it has shrunk,
    never below 0 and never past its end; so no empty or inverted range is
    opened and nothing at or after the size observed is asked for. With no
    key twice in the map, at most one stream is opened per file. *)
Theorem tick_streams_in_range (w : World) (t : Tail.LogTailer) :
  (forall rq,
     rq ∈ Tail.opened (Tail.checkForNewContent w t) ->
     exists pos size,
       (rq_path rq, pos) ∈ Tail.files t /\
       statSync w (rq_path rq) = Stats size /\
       rq_end rq = Some (size - 1) /\
       0 <= rq_start rq <= size - 1 /\
       (pos < size /\ rq_start rq = pos \/ size < pos /\ rq_start rq = 0)) /\
  (NoDup (Tail.getFiles t) ->
   forall f,
     (length (requests_of f (Tail.opened (Tail.checkForNewContent w t))) <= 1)%nat).
Proof.
  split.
  - intros rq Hin. apply fold_check_file_opened in Hin as [Hin|Hin]; [|done].
    by apply elem_of_nil in Hin.
  - intros Hnd f. destruct (map_get f (Tail.files t)) as [pos|] eqn:Hget.
    + destruct (checkForNewContent_at w t f pos Hnd Hget)
        as (p & _ & _ & Hp3 & (_ & _ & V3)).
      rewrite V3.
      destruct (check_file_opened w p f pos) as [E|(size & start & E & _)];
        rewrite E.
      * rewrite Hp3. simpl. lia.
      * rewrite requests_of_app, Hp3, requests_of_self. simpl. lia.
    + apply map_get_is_None in Hget.
      destruct (tick_absent w t f Hget) as (-> & _). simpl. lia.
Qed.

Lemma tick_streams_in_range_witness :
  {| rq_path := app_log; rq_start := 500; rq_end := Some 619 |}
    ∈ Tail.opened (Tail.checkForNewContent (disk_with grown_log) (tailer_at 500))
  /\
  NoDup (Tail.getFiles (tailer_at 500)) /\
  (exists pos size,
     (app_log, pos) ∈ Tail.files (tailer_at 500) /\
     statSync (disk_with grown_log) app_log = Stats size /\
     Some 619 = Some (size - 1) /\
     0 <= 500 <= size - 1 /\
     (pos < size /\ 500 = pos \/ size < pos /\ 500 = 0)) /\
  (length (requests_of app_log
             (Tail.opened
                (Tail.checkForNewContent (disk_with grown_log) (tailer_at 500))))
   <= 1)%nat.
Proof.
  assert (NoDup (Tail.getFiles (tailer_at 500))) as Hnd
    by (repeat constructor; by intros ?%elem_of_nil).
  assert ({| rq_path := app_log; rq_start := 500; rq_end := Some 619 |}
            ∈ Tail.opened
                (Tail.checkForNewContent (disk_with grown_log) (tailer_at 500)))
    as Hin by (vm_compute; by left).
  destruct (tick_streams_in_range (disk_with grown_log) (tailer_at 500))
    as [Hrange Hone].
  split; [exact Hin|]. split; [exact Hnd|]. split.
  - exact (Hrange _ Hin).
  - exact (Hone Hnd app_log).
Defined.

Lemma fold_check_file_log w es p ev :
  ev ∈ Tail.log p -> ev ∈ Tail.log (foldl (Tail.check_file w) p es).
Proof.
  revert p. induction es as [|[g pos] es IH]; intros p Hin; [done|].
  cbn [foldl]. apply IH. unfold Tail.check_file, Tail.catch.
  destruct (statSync w g); [|destruct (decide _)]; simpl;
    repeat (match goal with
            | |- context [if ?b then _ else _] => destruct b
            | |- context [match ?x with inl _ => _ | inr _ => _ end] =>
                destruct x
            end; simpl);
    try done; apply elem_of_app; by left.
Qed.

(** An event that the turn for a tracked entry always logs is among the
    events of the tick. *)
Lemma tick_logs_of_entry w t f pos ev :
  map_get f (Tail.files t) = Some pos ->
  (forall p, ev ∈ Tail.log (Tail.check_file w p (f, pos))) ->
  ev ∈ snd (Tail.tick w t).
Proof.
  intros Hget Hev. unfold Tail.tick, Tail.checkForNewContent. cbn [snd].
  apply elem_of_app. left.
  destruct (map_get_split _ _ _ Hget) as (m1 & m2 & -> & _).
  rewrite foldl_app. cbn [foldl]. apply fold_check_file_log, Hev.
Qed.

(** X11. A tracked file truncated to zero bytes, as log rotation by
    truncation leaves it, makes each driver reset the cursor to 0 and call
    [createReadStream] with [start] 0 and [end] -1, a range that
    [createReadStream] refuses with a [RangeError] of code
    [ERR_OUT_OF_RANGE]: the drivers emit it as an ['error'] event, and no
    stream is opened. *)
Theorem truncated_to_empty_emits_error (w : World) (f : string) (pos : Z) :
  0 < pos ->
  (forall t,
     NoDup (Tail.getFiles t) ->
     map_get f (Tail.files t) = Some pos ->
     statSync w f = Stats 0 ->
     Tail.Error (ErrnoException "ERR_OUT_OF_RANGE") ∈ snd (Tail.tick w t) /\
     requests_of f (Tail.opened (Tail.checkForNewContent w t)) = [] /\
     map_get f (Tail.files (fst (Tail.tick w t))) = Some 0) /\
  (forall t,
     Watcher.filePositions t !! resolve w f = Some pos ->
     statSync w (resolve w f) = Stats 0 ->
     Watcher.notice w t f =
       (Watcher.set_filePositions t
          (<[resolve w f := 0]> (Watcher.filePositions t)),
        [Watcher.Error (ErrnoException "ERR_OUT_OF_RANGE")])).
Proof.
  intros Hpos. split.
  - intros t Hnd Hget Hstat.
    assert (forall p, Tail.check_file w p (f, pos) =
              {| Tail.tailer :=
                   Tail.set_files (Tail.tailer p)
                     (map_set f 0 (Tail.files (Tail.tailer p)));
                 Tail.log :=
                   Tail.log p ++ [Tail.Error (ErrnoException "ERR_OUT_OF_RANGE")];
                 Tail.opened := Tail.opened p |}) as E.
    { intros p. unfold Tail.check_file. rewrite Hstat.
      by replace (0 <? pos) with true by (symmetry; apply Z.ltb_lt; lia). }
    destruct (checkForNewContent_at w t f pos Hnd Hget)
      as (p & Hp1 & Hp2 & Hp3 & (V1 & V2 & V3)).
    rewrite E in V1, V2, V3. simpl in V1, V2, V3.
    rewrite map_get_set_eq in V1. rewrite Hp3 in V3.
    split_and!; [|done|done].
    apply (tick_logs_of_entry w t f pos _ Hget). intros q. rewrite E. simpl.
    apply elem_of_app. right. by left.
  - intros t Hget Hstat. unfold Watcher.notice, Watcher.handleFileChange.
    rewrite Hstat, Hget. change (Watcher.or_zero (Some pos)) with pos.
    by replace (0 <? pos) with true by (symmetry; apply Z.ltb_lt; lia).
Qed.

Lemma truncated_to_empty_emits_error_witness :
  0 < 4 /\
  NoDup (Tail.getFiles (tailer_at 4)) /\
  map_get app_log (Tail.files (tailer_at 4)) = Some 4 /\
  statSync (disk_with []) app_log = Stats 0 /\
  Tail.Error (ErrnoException "ERR_OUT_OF_RANGE")
    ∈ snd (Tail.tick (disk_with []) (tailer_at 4)) /\
  requests_of app_log
    (Tail.opened (Tail.checkForNewContent (disk_with []) (tailer_at 4))) = [] /\
  map_get app_log (Tail.files (fst (Tail.tick (disk_with []) (tailer_at 4)))) =
    Some 0.
Proof.
  assert (NoDup (Tail.getFiles (tailer_at 4))) as Hnd
    by (repeat constructor; by intros ?%elem_of_nil).
  split; [lia|]. split; [exact Hnd|]. split; [reflexivity|].
  split; [reflexivity|].
  exact (proj1 (truncated_to_empty_emits_error (disk_with []) app_log 4
                  ltac:(lia)) (tailer_at 4) Hnd eq_refl eq_refl).
Defined.

Lemma check_file_congr w1 w2 p1 p2 f pos :
  statSync w1 f = statSync w2 f ->
  NoDup (Tail.getFiles (Tail.tailer p1)) ->
  NoDup (Tail.getFiles (Tail.tailer p2)) ->
  view_eq f p1 p2 ->
  view_eq f (Tail.check_file w1 p1 (f, pos)) (Tail.check_file w2 p2 (f, pos)).
Proof.
  intros Hstat Hnd1 Hnd2 (V1 & V2 & V3).
  unfold Tail.check_file, Tail.readNewContent, createReadStream, Tail.catch.
  rewrite <- Hstat. unfold view_eq.
  destruct (statSync w1 f) as [size|e].
  - cbn [rq_start rq_end].
    destruct (size <? pos); [|destruct (size >? pos)];
      try destruct (_ || _); simpl;
      rewrite ?map_get_set_eq, ?tail_events_of_app, ?requests_of_app,
        ?V1, ?V2, ?V3; done.
  - destruct (decide _); simpl;
      rewrite ?map_get_delete_eq, ?tail_events_of_app, ?V1, ?V2, ?V3 by done;
      done.
Qed.

Lemma drain_ext w1 w2 rqs :
  (forall rq, rq ∈ rqs -> stream_of w1 rq = stream_of w2 rq) ->
  Tail.drain w1 rqs = Tail.drain w2 rqs.
Proof.
  unfold Tail.drain. induction rqs as [|rq rqs IH]; intros H; [done|].
  rewrite !bind_cons, IH.
  - rewrite (H rq); [done | by left].
  - intros rq' Hin. apply H. by right.
Qed.

(** X12. What a tick does to one file depends on that file alone: in two
    tailers that hold the same cursor for it (or both none), on two file
    systems that give the same [statSync] and the same streams for it,
    whatever the other files are and whatever happens to them, the tick
    leaves the same cursor, opens the same streams on it and emits the same
    events naming it. *)
Theorem tick_per_file (w1 w2 : World) (t1 t2 : Tail.LogTailer) (f : string) :
  NoDup (Tail.getFiles t1) ->
  NoDup (Tail.getFiles t2) ->
  map_get f (Tail.files t1) = map_get f (Tail.files t2) ->
  statSync w1 f = statSync w2 f ->
  (forall rq, rq_path rq = f -> stream_of w1 rq = stream_of w2 rq) ->
  map_get f (Tail.files (fst (Tail.tick w1 t1))) =
    map_get f (Tail.files (fst (Tail.tick w2 t2))) /\
  requests_of f (Tail.opened (Tail.checkForNewContent w1 t1)) =
    requests_of f (Tail.opened (Tail.checkForNewContent w2 t2)) /\
  tail_events_of f (snd (Tail.tick w1 t1)) =
    tail_events_of f (snd (Tail.tick w2 t2)).
Proof.
  intros Hnd1 Hnd2 Hget Hstat Hstream.
  assert (view_eq f (Tail.checkForNewContent w1 t1)
            (Tail.checkForNewContent w2 t2)) as (V1 & V2 & V3).
  { destruct (map_get f (Tail.files t1)) as [pos|] eqn:Hget1.
    - symmetry in Hget.
      destruct (checkForNewContent_at_NoDup w1 t1 f pos Hnd1 Hget1)
        as (p1 & Hn1 & Ha1 & Hb1 & Hc1 & (A1 & A2 & A3)).
      destruct (checkForNewContent_at_NoDup w2 t2 f pos Hnd2 Hget)
        as (p2 & Hn2 & Ha2 & Hb2 & Hc2 & (B1 & B2 & B3)).
      destruct (check_file_congr w1 w2 p1 p2 f pos Hstat Hn1 Hn2)
        as (C1 & C2 & C3).
      { split_and!; congruence. }
      split_and!; congruence.
    - symmetry in Hget. apply map_get_is_None in Hget1, Hget.
      destruct (fold_check_file_other w1 f (Tail.files t1)
                  {| Tail.tailer := t1; Tail.log := []; Tail.opened := [] |}
                  Hget1) as (A1 & A2 & A3).
      destruct (fold_check_file_other w2 f (Tail.files t2)
                  {| Tail.tailer := t2; Tail.log := []; Tail.opened := [] |}
                  Hget) as (B1 & B2 & B3).
      unfold Tail.checkForNewContent. simpl in *.
      split_and!; [rewrite A1, B1 | by rewrite A2, B2 | by rewrite A3, B3].
      apply map_get_is_None in Hget1, Hget. by rewrite Hget1, Hget. }
  unfold Tail.tick. cbn [fst snd]. split_and!; [done | done |].
  rewrite !tail_events_of_app, V2. f_equal.
  rewrite (drain_events_of w1), (drain_events_of w2), V3.
  f_equal. apply drain_ext. intros rq [Hrq _]%list_elem_of_filter.
  by apply Hstream.
Qed.

Lemma tick_per_file_witness :
  NoDup (Tail.getFiles (tailer_at 4)) /\
  NoDup (Tail.getFiles
           {| Tail.files := [("gone.log", 7); (app_log, 4)];
              Tail.following := false; Tail.pollInterval := false |}) /\
  tail_events_of app_log
    (snd (Tail.tick
            (disk_with (bytes_of ("a" +:+ lf +:+ "b" +:+ lf +:+ "c" +:+ lf)))
            (tailer_at 4))) =
    tail_events_of app_log
      (snd (Tail.tick
              (disk_with (bytes_of ("a" +:+ lf +:+ "b" +:+ lf +:+ "c" +:+ lf)))
              {| Tail.files := [("gone.log", 7); (app_log, 4)];
                 Tail.following := false; Tail.pollInterval := false |})).
Proof.
  assert (NoDup (Tail.getFiles (tailer_at 4))) as Hnd1
    by (repeat constructor; by intros ?%elem_of_nil).
  assert (NoDup (Tail.getFiles
                   {| Tail.files := [("gone.log", 7); (app_log, 4)];
                      Tail.following := false; Tail.pollInterval := false |}))
    as Hnd2.
  { apply NoDup_cons. split; [|repeat constructor; by intros ?%elem_of_nil].
    by intros [=]%list_elem_of_singleton. }
  split; [exact Hnd1|]. split; [exact Hnd2|].
  exact (proj2 (proj2 (tick_per_file _ _ _ _ app_log Hnd1 Hnd2 eq_refl eq_refl
                         (fun _ _ => eq_refl)))).
Defined.

(** ** Tailing several files *)

Lemma tailMultiple_files w t ps o ended :
  Tail.files (fst (Tail.tailMultiple w t ps o ended)) =
    Tail.files
      (fst (foldl (Tail.resume w (default 10 (Tail.lines o)))
              (t, (fun a => Tail.Error (Error_ ("File not found: " +:+ a)))
                    <$> filter (fun a => existsSync w a = false)
                          (resolve w <$> ps))
              (filter (fun a =>
                         Tail.settles_at_once w a (default 10 (Tail.lines o))
                         = true)
                 (filter (fun a => existsSync w a = true) (resolve w <$> ps))
               ++ ended))) /\
  snd (Tail.tailMultiple w t ps o ended) =
    snd (foldl (Tail.resume w (default 10 (Tail.lines o)))
           (t, (fun a => Tail.Error (Error_ ("File not found: " +:+ a)))
                 <$> filter (fun a => existsSync w a = false)
                       (resolve w <$> ps))
           (filter (fun a =>
                      Tail.settles_at_once w a (default 10 (Tail.lines o))
                      = true)
              (filter (fun a => existsSync w a = true) (resolve w <$> ps))
            ++ ended)).
Proof.
  unfold Tail.tailMultiple. destruct (foldl _ _ _) as [t' log].
  by destruct (default false _).
Qed.

(** With one path, there is one order in which the callbacks resume. *)
Lemma single_resumed w f o ended :
  ended ≡ₚ Tail.streaming w [f] o ->
  filter (fun a =>
            Tail.settles_at_once w a (default 10 (Tail.lines o)) = true)
    (filter (fun a => existsSync w a = true) (resolve w <$> [f])) ++ ended =
  filter (fun a => existsSync w a = true) [resolve w f].
Proof.
  unfold Tail.streaming. rewrite list_fmap_singleton.
  rewrite (filter_cons (fun a => existsSync w a = true)), filter_nil.
  destruct (decide (existsSync w (resolve w f) = true)) as [Hex|Hex].
  - rewrite !filter_cons, !filter_nil.
    destruct (Tail.settles_at_once w (resolve w f) _) eqn:Hs; simpl.
    + by intros ->%Permutation_nil_r.
    + by intros ->%Permutation_singleton_r.
  - rewrite !filter_nil. by intros ->%Permutation_nil_r.
Qed.

(** X13. On a single path [tailMultiple] emits exactly the events of [tail]
    and leaves the same cursors, in every case: file not found, failed
    read, or success. It differs in what [tail] reports by rejecting:
    [tailMultiple] resolves all the same, and with [follow] it starts
    following even when the file failed. *)
Theorem tailMultiple_single (w : World) (t : Tail.LogTailer) (f : string)
    (o : Tail.TailOptions) (ended : list string) :
  ended ≡ₚ Tail.streaming w [f] o ->
  snd (Tail.tailMultiple w t [f] o ended) = snd (fst (Tail.tail w t f o)) /\
  Tail.files (fst (Tail.tailMultiple w t [f] o ended)) =
    Tail.files (fst (fst (Tail.tail w t f o))) /\
  Tail.following (fst (Tail.tailMultiple w t [f] o ended)) =
    default false (Tail.follow o) || Tail.following t /\
  Tail.pollInterval (fst (Tail.tailMultiple w t [f] o ended)) =
    default false (Tail.follow o) || Tail.pollInterval t.
Proof.
  intros Hended. unfold Tail.tailMultiple, Tail.tail.
  rewrite (single_resumed w f o ended Hended). rewrite list_fmap_singleton.
  rewrite !filter_cons, !filter_nil.
  destruct (existsSync w (resolve w f)); simpl.
  - unfold Tail.resume.
    destruct (Tail.readLastLines _ _ _) as [e|ls];
      [by destruct (default false _)|].
    destruct (statSync _ _); by destruct (default false _).
  - by destruct (default false _).
Qed.

Lemma tailMultiple_single_witness :
  [app_log] ≡ₚ
    Tail.streaming (disk_with (bytes_of ("a" +:+ lf +:+ "b" +:+ lf)))
      [app_log] {| Tail.lines := None; Tail.follow := Some true |} /\
  snd (Tail.tailMultiple (disk_with (bytes_of ("a" +:+ lf +:+ "b" +:+ lf)))
         Tail.new_LogTailer [app_log]
         {| Tail.lines := None; Tail.follow := Some true |} [app_log]) =
    snd (fst (Tail.tail (disk_with (bytes_of ("a" +:+ lf +:+ "b" +:+ lf)))
                Tail.new_LogTailer app_log
                {| Tail.lines := None; Tail.follow := Some true |})) /\
  snd (Tail.tailMultiple (disk_with (bytes_of ("a" +:+ lf +:+ "b" +:+ lf)))
         Tail.new_LogTailer [app_log]
         {| Tail.lines := None; Tail.follow := Some true |} [app_log]) =
    [Tail.Line {| Tail.file := app_log; Tail.line := js "a";
                  Tail.lineNumber := 1 |};
     Tail.Line {| Tail.file := app_log; Tail.line := js "b";
                  Tail.lineNumber := 2 |}].
Proof.
  assert ([app_log] ≡ₚ
            Tail.streaming (disk_with (bytes_of ("a" +:+ lf +:+ "b" +:+ lf)))
              [app_log] {| Tail.lines := None; Tail.follow := Some true |})
    as H by reflexivity.
  split; [exact H|].
  split; [|reflexivity].
  exact (proj1 (tailMultiple_single
                  (disk_with (bytes_of ("a" +:+ lf +:+ "b" +:+ lf)))
                  Tail.new_LogTailer app_log
                  {| Tail.lines := None; Tail.follow := Some true |}
                  [app_log] H)).
Defined.

Lemma resume_files w n t log a :
  Tail.files (fst (Tail.resume w n (t, log) a)) = Tail.files t \/
  exists ls size,
    Tail.readLastLines w a n = inr ls /\ statSync w a = Stats size /\
    Tail.files (fst (Tail.resume w n (t, log) a)) =
      map_set a size (Tail.files t).
Proof.
  unfold Tail.resume. destruct (Tail.readLastLines w a n) as [e|ls]; [by left|].
  destruct (statSync w a) as [size|e]; [|by left]. right. by exists ls, size.
Qed.

Lemma fold_resume_other w n acc ps g :
  g ∉ ps ->
  map_get g (Tail.files (fst (foldl (Tail.resume w n) acc ps))) =
    map_get g (Tail.files (fst acc)).
Proof.
  revert acc. induction ps as [|a ps IH]; intros [t log] H; [done|].
  apply not_elem_of_cons in H as [Hne Hps]. cbn [foldl].
  rewrite IH by done.
  destruct (resume_files w n t log a) as [->|(ls & size & _ & _ & ->)];
    [done|]. by apply map_get_set_ne.
Qed.

Lemma fold_resume_cursor w n acc ps a ls size :
  Tail.readLastLines w a n = inr ls ->
  statSync w a = Stats size ->
  a ∈ ps \/ map_get a (Tail.files (fst acc)) = Some size ->
  map_get a (Tail.files (fst (foldl (Tail.resume w n) acc ps))) = Some size.
Proof.
  intros Hread Hstat. revert acc.
  induction ps as [|b ps IH]; intros [t log] H.
  - destruct H as [H|H]; [by apply elem_of_nil in H | done].
  - cbn [foldl]. apply IH. destruct (decide (b = a)) as [->|Hne].
    + right. unfold Tail.resume. rewrite Hread, Hstat. apply map_get_set_eq.
    + destruct H as [[?|Hin]%elem_of_cons|Hget]; [congruence | by left |].
      right.
      destruct (resume_files w n t log b) as [->|(? & ? & _ & _ & ->)];
        [done|]. by rewrite map_get_set_ne.
Qed.

Lemma resume_log w n t log a :
  exists more, snd (Tail.resume w n (t, log) a) = log ++ more /\
    forall ls, Tail.readLastLines w a n = inr ls ->
      exists rest, more = Tail.emit_initial a ls ++ rest.
Proof.
  unfold Tail.resume. destruct (Tail.readLastLines w a n) as [e|ls].
  - exists [Tail.Error e]. split; [done|]. by intros ls [=].
  - destruct (statSync w a) as [size|e].
    + exists (Tail.emit_initial a ls). split; [done|].
      intros ? [= <-]. exists []. by rewrite app_nil_r.
    + exists (Tail.emit_initial a ls ++ [Tail.Error e]).
      split; [by rewrite app_assoc|]. intros ? [= <-]. by eexists.
Qed.

Lemma fold_resume_log_mono w n acc ps ev :
  ev ∈ snd acc -> ev ∈ snd (foldl (Tail.resume w n) acc ps).
Proof.
  revert acc. induction ps as [|a ps IH]; intros [t log] H; [done|].
  cbn [foldl]. apply IH.
  destruct (resume_log w n t log a) as (more & E & _).
  destruct (Tail.resume w n (t, log) a) as [t' log'].
  simpl in *. subst log'. apply elem_of_app. by left.
Qed.

Lemma fold_resume_lines w n acc ps a ls ev :
  Tail.readLastLines w a n = inr ls ->
  a ∈ ps -> ev ∈ Tail.emit_initial a ls ->
  ev ∈ snd (foldl (Tail.resume w n) acc ps).
Proof.
  intros Hread. revert acc.
  induction ps as [|b ps IH]; intros [t log] Hin Hev;
    [by apply elem_of_nil in Hin|].
  cbn [foldl]. destruct (decide (b = a)) as [->|Hne].
  - apply fold_resume_log_mono.
    destruct (resume_log w n t log a) as (more & E & Hmore).
    destruct (Hmore ls Hread) as [rest ->].
    destruct (Tail.resume w n (t, log) a) as [t' log'].
    simpl in *. subst log'. apply elem_of_app. right.
    apply elem_of_app. by left.
  - apply elem_of_cons in Hin as [?|Hin]; [congruence|]. by apply IH.
Qed.

Lemma fold_resume_log_prefix w n acc ps :
  exists rest, snd (foldl (Tail.resume w n) acc ps) = snd acc ++ rest.
Proof.
  revert acc. induction ps as [|a ps IH]; intros [t log].
  - exists []. by rewrite app_nil_r.
  - cbn [foldl]. destruct (resume_log w n t log a) as (more & E & _).
    destruct (IH (Tail.resume w n (t, log) a)) as [rest ->].
    rewrite E. exists (more ++ rest). by rewrite app_assoc.
Qed.

(** The callbacks that resume are those of the paths that exist. *)
Lemma resumed_paths w ps o ended a :
  ended ≡ₚ Tail.streaming w ps o ->
  a ∈ filter (fun a =>
                Tail.settles_at_once w a (default 10 (Tail.lines o)) = true)
        (filter (fun a => existsSync w a = true) (resolve w <$> ps)) ++ ended
  <-> a ∈ filter (fun a => existsSync w a = true) (resolve w <$> ps).
Proof.
  intros ->. unfold Tail.streaming.
  rewrite elem_of_app, !list_elem_of_filter.
  destruct (Tail.settles_at_once w a _); tauto.
Qed.

(** X14. [tailMultiple] treats every path on its own, in whatever order the
    streams of the initial reads end: the ['error'] events
    [File not found: <absolute path>] of the paths that do not exist come
    first, in the order of the paths; a path that exists, whose initial
    window is read and whose [statSync] succeeds, has its lines emitted and
    its cursor set to its size, whatever happens to the other paths; the
    cursor of a file that is not among the paths is untouched. *)
Theorem tailMultiple_each_path (w : World) (t : Tail.LogTailer)
    (ps : list string) (o : Tail.TailOptions) (ended : list string) :
  ended ≡ₚ Tail.streaming w ps o ->
  (forall f,
     f ∈ ps -> existsSync w (resolve w f) = false ->
     Tail.Error (Error_ ("File not found: " +:+ resolve w f))
       ∈ snd (Tail.tailMultiple w t ps o ended)) /\
  (exists rest,
     snd (Tail.tailMultiple w t ps o ended) =
       ((fun a => Tail.Error (Error_ ("File not found: " +:+ a)))
          <$> filter (fun a => existsSync w a = false) (resolve w <$> ps))
       ++ rest) /\
  (forall f ls size,
     f ∈ ps -> existsSync w (resolve w f) = true ->
     Tail.readLastLines w (resolve w f) (default 10 (Tail.lines o)) = inr ls ->
     statSync w (resolve w f) = Stats size ->
     map_get (resolve w f)
       (Tail.files (fst (Tail.tailMultiple w t ps o ended))) = Some size /\
     forall ev, ev ∈ Tail.emit_initial (resolve w f) ls ->
                ev ∈ snd (Tail.tailMultiple w t ps o ended)) /\
  (forall g,
     g ∉ resolve w <$> ps ->
     map_get g (Tail.files (fst (Tail.tailMultiple w t ps o ended))) =
       map_get g (Tail.files t)).
Proof.
  intros Hended.
  destruct (tailMultiple_files w t ps o ended) as [-> ->]. split_and!.
  - intros f Hin Hex. apply fold_resume_log_mono. cbn [snd].
    apply list_elem_of_fmap. exists (resolve w f). split; [done|].
    apply list_elem_of_filter. split; [done|].
    apply list_elem_of_fmap. by exists f.
  - apply fold_resume_log_prefix.
  - intros f ls size Hin Hex Hread Hstat.
    assert (resolve w f
              ∈ filter (fun a =>
                          Tail.settles_at_once w a
                            (default 10 (Tail.lines o)) = true)
                  (filter (fun a => existsSync w a = true) (resolve w <$> ps))
                ++ ended)
      as Hin'.
    { apply (resumed_paths w ps o ended _ Hended).
      apply list_elem_of_filter. split; [done|].
      apply list_elem_of_fmap. by exists f. }
    split.
    + eapply fold_resume_cursor; [done | done | by left].
    + intros ev Hev. by eapply fold_resume_lines.
  - intros g Hg. rewrite fold_resume_other; [done|].
    intros Hin. apply (resumed_paths w ps o ended _ Hended) in Hin.
    by apply list_elem_of_filter in Hin as [_ ?].
Qed.

Lemma tailMultiple_each_path_witness :
  [app_log] ≡ₚ
    Tail.streaming two_files ["other.log"; app_log; "empty.log"]
      {| Tail.lines := None; Tail.follow := None |} /\
  ("other.log" ∈ ["other.log"; app_log; "empty.log"]) /\
  existsSync two_files (resolve two_files "other.log") = false /\
  Tail.Error
    (Error_ ("File not found: " +:+ resolve two_files "other.log"))
    ∈ snd (Tail.tailMultiple two_files Tail.new_LogTailer
             ["other.log"; app_log; "empty.log"]
             {| Tail.lines := None; Tail.follow := None |} [app_log]) /\
  (app_log ∈ ["other.log"; app_log; "empty.log"]) /\
  map_get (resolve two_files app_log)
    (Tail.files
       (fst (Tail.tailMultiple two_files Tail.new_LogTailer
               ["other.log"; app_log; "empty.log"]
               {| Tail.lines := None; Tail.follow := None |} [app_log]))) =
    Some 2 /\
  Tail.getFiles
    (fst (Tail.tailMultiple two_files Tail.new_LogTailer
            ["other.log"; app_log; "empty.log"]
            {| Tail.lines := None; Tail.follow := None |} [app_log])) =
    ["empty.log"; app_log] /\
  snd (Tail.tailMultiple two_files Tail.new_LogTailer
         ["other.log"; app_log; "empty.log"]
         {| Tail.lines := None; Tail.follow := None |} [app_log]) =
    [Tail.Error (Error_ "File not found: other.log");
     Tail.Line {| Tail.file := app_log; Tail.line := js "a";
                  Tail.lineNumber := 1 |}].
Proof.
  assert ([app_log] ≡ₚ
            Tail.streaming two_files ["other.log"; app_log; "empty.log"]
              {| Tail.lines := None; Tail.follow := None |})
    as H by reflexivity.
  destruct (tailMultiple_each_path two_files
              Tail.new_LogTailer ["other.log"; app_log; "empty.log"]
              {| Tail.lines := None; Tail.follow := None |} [app_log] H)
    as (Hmissing & _ & Hpresent & _).
  assert ("other.log" ∈ ["other.log"; app_log; "empty.log"]) as H1
    by (by left).
  assert (app_log ∈ ["other.log"; app_log; "empty.log"]) as H2
    by (right; by left).
  split; [exact H|]. split; [exact H1|]. split; [reflexivity|].
  split; [exact (Hmissing "other.log" H1 eq_refl)|].
  split; [exact H2|].
  split;
    [exact (proj1 (Hpresent app_log [js "a"] 2 H2 eq_refl eq_refl eq_refl))|].
  split; reflexivity.
Defined.

(** ** The watcher: cursors that are missing, set and forgotten *)

(** X15. A change notice for a path without a stored cursor takes the
    cursor to be 0: the whole file, from offset 0 to its size, is read and
    emitted, and the cursor becomes the size. This is the state of every
    path of a new watcher until an ['add'] notice comes, and of a path after
    [handleFileRemove]. *)
Theorem notice_without_cursor_reads_all (w : World) (f : string) (size : Z) :
  statSync w (resolve w f) = Stats size ->
  0 < size ->
  (forall t,
     Watcher.filePositions t !! resolve w f = None ->
     Watcher.notice w t f =
       (Watcher.set_filePositions t
          (<[resolve w f := size]> (Watcher.filePositions t)),
        Watcher.run_stream (resolve w f)
          (stream_of w {| rq_path := resolve w f; rq_start := 0;
                          rq_end := Some (size - 1) |}))) /\
  (forall fs,
     Watcher.filePositions (Watcher.new_LogWatcher w fs) !! resolve w f = None) /\
  (forall t,
     Watcher.filePositions (fst (Watcher.handleFileRemove w t f))
       !! resolve w f = None).
Proof.
  intros Hstat Hsize. split_and!.
  - intros t Hget.
    unfold Watcher.notice, Watcher.handleFileChange, Watcher.readNewContent,
      createReadStream.
    rewrite Hstat, Hget. cbn [rq_start rq_end].
    change (Watcher.or_zero None) with 0.
    replace (size <? 0) with false by (symmetry; apply Z.ltb_ge; lia).
    replace (size >? 0) with true by (symmetry; apply Z.gtb_lt; lia).
    replace (size - 1 <? 0) with false by (symmetry; apply Z.ltb_ge; lia).
    simpl. by rewrite app_nil_r.
  - intros fs. apply lookup_empty.
  - intros t. apply lookup_delete_eq.
Qed.

Lemma notice_without_cursor_reads_all_witness :
  statSync (disk_with (bytes_of ("a" +:+ lf +:+ "b" +:+ lf)))
    (resolve (disk_with (bytes_of ("a" +:+ lf +:+ "b" +:+ lf))) app_log) =
    Stats 4 /\
  0 < 4 /\
  Watcher.filePositions
    (Watcher.new_LogWatcher (disk_with (bytes_of ("a" +:+ lf +:+ "b" +:+ lf)))
       [app_log]) !! app_log = None /\
  watcher_lines
    (snd (Watcher.notice (disk_with (bytes_of ("a" +:+ lf +:+ "b" +:+ lf)))
            (Watcher.new_LogWatcher
               (disk_with (bytes_of ("a" +:+ lf +:+ "b" +:+ lf))) [app_log])
            app_log)) = [js "a"; js "b"].
Proof.
  split; [reflexivity|]. split; [lia|]. split; [reflexivity|].
  rewrite (proj1 (notice_without_cursor_reads_all
                    (disk_with (bytes_of ("a" +:+ lf +:+ "b" +:+ lf)))
                    app_log 4 eq_refl ltac:(lia))
             (Watcher.new_LogWatcher
                (disk_with (bytes_of ("a" +:+ lf +:+ "b" +:+ lf))) [app_log])
             eq_refl).
  reflexivity.
Defined.

(** X16. [handleFileAdd] records the size of the file as its cursor, so
    what the file holds when it is added is never emitted: a change notice
    that finds the same size emits nothing and opens no stream, and one that
    finds the file grown reads from the size recorded. If [statSync] throws,
    [handleFileAdd] emits the ['error'] and records nothing. *)
Theorem added_file_starts_at_its_size (w : World) (t : Watcher.LogWatcher)
    (f : string) :
  (forall size,
     statSync w (resolve w f) = Stats size ->
     Watcher.filePositions (fst (Watcher.handleFileAdd w t f)) !! resolve w f =
       Some size /\
     Watcher.handleFileChange w (fst (Watcher.handleFileAdd w t f)) f =
       (fst (Watcher.handleFileAdd w t f), [], []) /\
     forall w' size',
       resolve w' f = resolve w f ->
       statSync w' (resolve w f) = Stats size' -> 0 <= size < size' ->
       snd (Watcher.handleFileChange w' (fst (Watcher.handleFileAdd w t f)) f) =
         [{| rq_path := resolve w f; rq_start := size;
             rq_end := Some (size' - 1) |}]) /\
  (forall e,
     statSync w (resolve w f) = StatThrows e ->
     Watcher.handleFileAdd w t f = (t, [Watcher.Error e])).
Proof.
  split.
  - intros size Hstat.
    assert (Watcher.filePositions (fst (Watcher.handleFileAdd w t f))
              !! resolve w f = Some size) as Hget.
    { unfold Watcher.handleFileAdd. rewrite Hstat. apply lookup_insert_eq. }
    split_and!; [done | by apply (handleFileChange_unchanged w _ f size) |].
    intros w' size' Hres Hstat' Hlt.
    rewrite <- Hres in Hget, Hstat' |- *.
    by rewrite (handleFileChange_grown w' _ f size size').
  - intros e Hstat. unfold Watcher.handleFileAdd. by rewrite Hstat.
Qed.

Lemma added_file_starts_at_its_size_witness :
  statSync (disk_with (bytes_of ("a" +:+ lf +:+ "b" +:+ lf)))
    (resolve (disk_with (bytes_of ("a" +:+ lf +:+ "b" +:+ lf))) app_log) =
    Stats 4 /\
  Watcher.handleFileChange (disk_with (bytes_of ("a" +:+ lf +:+ "b" +:+ lf)))
    (fst (Watcher.handleFileAdd
            (disk_with (bytes_of ("a" +:+ lf +:+ "b" +:+ lf)))
            (Watcher.new_LogWatcher
               (disk_with (bytes_of ("a" +:+ lf +:+ "b" +:+ lf))) [app_log])
            app_log)) app_log =
    (fst (Watcher.handleFileAdd
            (disk_with (bytes_of ("a" +:+ lf +:+ "b" +:+ lf)))
            (Watcher.new_LogWatcher
               (disk_with (bytes_of ("a" +:+ lf +:+ "b" +:+ lf))) [app_log])
            app_log), [], []).
Proof.
  split; [reflexivity|].
  exact (proj1 (proj2 (proj1 (added_file_starts_at_its_size
                                (disk_with (bytes_of ("a" +:+ lf +:+ "b" +:+ lf)))
                                (Watcher.new_LogWatcher
                                   (disk_with
                                      (bytes_of ("a" +:+ lf +:+ "b" +:+ lf)))
                                   [app_log]) app_log) 4 eq_refl))).
Defined.

(** X17. A change notice touches the cursor of its own path and nothing
    else: the cursors of the other paths, the list of files and the calls
    made on the chokidar watcher are as before, and so they are after
    [handleFileAdd] and [handleFileRemove]. *)
Theorem notice_touches_one_cursor (w : World) (t : Watcher.LogWatcher)
    (f : string) :
  (forall g, g <> resolve w f ->
     Watcher.filePositions (fst (Watcher.notice w t f)) !! g =
       Watcher.filePositions t !! g /\
     Watcher.filePositions (fst (Watcher.handleFileAdd w t f)) !! g =
       Watcher.filePositions t !! g /\
     Watcher.filePositions (fst (Watcher.handleFileRemove w t f)) !! g =
       Watcher.filePositions t !! g) /\
  Watcher.files (fst (Watcher.notice w t f)) = Watcher.files t /\
  Watcher.watcher (fst (Watcher.notice w t f)) = Watcher.watcher t /\
  Watcher.getFiles (fst (Watcher.handleFileAdd w t f)) = Watcher.getFiles t /\
  Watcher.getFiles (fst (Watcher.handleFileRemove w t f)) = Watcher.getFiles t.
Proof.
  assert (forall t', fst (Watcher.notice w t f) = t' ->
            t' = t \/ exists v, t' = Watcher.set_filePositions t
                          (<[resolve w f := v]> (Watcher.filePositions t)))
    as Hcases.
  { intros t' <-. unfold Watcher.notice, Watcher.handleFileChange.
    destruct (statSync w (resolve w f)) as [size|e]; [|by left].
    destruct (size <? _).
    - right. exists 0. by destruct (Watcher.readNewContent _ _ _).
    - destruct (size >? _).
      + destruct (Watcher.readNewContent _ _ _); [by left|].
        right. by exists size.
      + right. by exists size. }
  destruct (Hcases _ eq_refl) as [->|[v ->]].
  - split_and!; try done.
    + intros g Hg. split_and!; [done | |by apply lookup_delete_ne].
      unfold Watcher.handleFileAdd. destruct (statSync _ _); [|done].
      by apply lookup_insert_ne.
    + unfold Watcher.handleFileAdd. by destruct (statSync _ _).
  - split_and!; try done.
    + intros g Hg. split_and!;
        [by apply lookup_insert_ne | | by apply lookup_delete_ne].
      unfold Watcher.handleFileAdd. destruct (statSync _ _); [|done].
      by apply lookup_insert_ne.
    + unfold Watcher.handleFileAdd. by destruct (statSync _ _).
Qed.

Lemma notice_touches_one_cursor_witness :
  "other.log" <> resolve (disk_with grown_log) app_log /\
  Watcher.filePositions
    (fst (Watcher.notice (disk_with grown_log)
            {| Watcher.watcher := None;
               Watcher.filePositions := {[ app_log := 500; "other.log" := 7 ]};
               Watcher.files := [app_log; "other.log"] |} app_log))
    !! "other.log" = Some 7.
Proof.
  assert ("other.log" <> resolve (disk_with grown_log) app_log) as Hne
    by (by intros [=]).
  split; [exact Hne|].
  rewrite (proj1 (proj1 (notice_touches_one_cursor (disk_with grown_log)
                           {| Watcher.watcher := None;
                              Watcher.filePositions :=
                                {[ app_log := 500; "other.log" := 7 ]};
                              Watcher.files := [app_log; "other.log"] |}
                           app_log) "other.log" Hne)).
  reflexivity.
Defined.

(** ** The watcher's list: adding and removing *)

Lemma indexOf_snoc x l :
  x ∉ l -> Watcher.indexOf x (l ++ [x]) = Z.of_nat (length l).
Proof.
  intros H. unfold Watcher.indexOf.
  rewrite list_find_app_r.
  - simpl. by rewrite decide_True.
  - apply list_find_None, Forall_forall. by intros y Hy ->.
Qed.

Lemma delete_snoc {A} (l : list A) (x : A) : delete (length l) (l ++ [x]) = l.
Proof. induction l as [|a l IH]; [done|]. simpl. by rewrite IH. Qed.

(** X18. Adding a path that is not in the list and removing it again gives
    back the list as it was, order included; the chokidar watcher was told
    to add and then to unwatch the path, and the path has no cursor. *)
Theorem add_then_remove (w : World) (t : Watcher.LogWatcher) (f : string) :
  resolve w f ∉ Watcher.files t ->
  Watcher.getFiles (Watcher.removeFile w (Watcher.addFile w t f) f) =
    Watcher.getFiles t /\
  Watcher.filePositions (Watcher.removeFile w (Watcher.addFile w t f) f) =
    delete (resolve w f) (Watcher.filePositions t) /\
  Watcher.watcher (Watcher.removeFile w (Watcher.addFile w t f) f) =
    Watcher.call (Watcher.unwatch (resolve w f))
      (Watcher.call (Watcher.watcher_add (resolve w f)) (Watcher.watcher t)).
Proof.
  intros H. unfold Watcher.addFile, Watcher.includes.
  rewrite bool_decide_eq_false_2 by done. cbn [negb].
  unfold Watcher.removeFile. cbn [Watcher.files Watcher.filePositions
                                   Watcher.watcher].
  rewrite indexOf_snoc by done.
  replace (Z.of_nat (length (Watcher.files t)) =? -1) with false
    by (symmetry; apply Z.eqb_neq; lia).
  cbn [negb Watcher.getFiles Watcher.files Watcher.filePositions
         Watcher.watcher].
  unfold Watcher.splice1. by rewrite Nat2Z.id, delete_snoc.
Qed.

Lemma add_then_remove_witness :
  ("new.log" ∉ Watcher.files (watcher_at 4)) /\
  Watcher.getFiles
    (Watcher.removeFile (disk_with [])
       (Watcher.addFile (disk_with []) (watcher_at 4) "new.log") "new.log") =
    Watcher.getFiles (watcher_at 4).
Proof.
  assert ("new.log" ∉ Watcher.files (watcher_at 4)) as H
    by (by intros [=]%list_elem_of_singleton).
  split; [exact H|].
  exact (proj1 (add_then_remove (disk_with []) (watcher_at 4) "new.log" H)).
Defined.

(** X19. Used as a set, the watcher's list stays one: from a list without
    duplicates [addFile] and [removeFile] give a list without duplicates;
    [addFile] does nothing at all for a path already listed and
    [removeFile] nothing for a path not listed; after [addFile] the path is
    listed, after [removeFile] it is not. *)
Theorem list_kept_as_set (w : World) (t : Watcher.LogWatcher) (f : string) :
  NoDup (Watcher.getFiles t) ->
  NoDup (Watcher.getFiles (Watcher.addFile w t f)) /\
  NoDup (Watcher.getFiles (Watcher.removeFile w t f)) /\
  (resolve w f ∈ Watcher.getFiles t -> Watcher.addFile w t f = t) /\
  (resolve w f ∉ Watcher.getFiles t -> Watcher.removeFile w t f = t) /\
  (resolve w f ∈ Watcher.getFiles (Watcher.addFile w t f)) /\
  (resolve w f ∉ Watcher.getFiles (Watcher.removeFile w t f)).
Proof.
  intros H. split_and!.
  - by apply addFile_NoDup.
  - by apply removeFile_NoDup.
  - apply addFile_present.
  - apply removeFile_absent.
  - unfold Watcher.getFiles, Watcher.addFile, Watcher.includes.
    destruct (bool_decide_reflect (resolve w f ∈ Watcher.files t)); [done|].
    simpl. apply elem_of_app. right. by left.
  - by apply removeFile_gone.
Qed.

Lemma list_kept_as_set_witness :
  NoDup (Watcher.getFiles (watcher_at 4)) /\
  (resolve (disk_with []) app_log ∈ Watcher.getFiles (watcher_at 4)) /\
  Watcher.addFile (disk_with []) (watcher_at 4) app_log = watcher_at 4 /\
  (resolve (disk_with []) app_log
     ∉ Watcher.getFiles (Watcher.removeFile (disk_with []) (watcher_at 4)
                           app_log)).
Proof.
  assert (NoDup (Watcher.getFiles (watcher_at 4))) as Hnd
    by (repeat constructor; by intros ?%elem_of_nil).
  assert (resolve (disk_with []) app_log ∈ Watcher.getFiles (watcher_at 4))
    as Hin by (by left).
  destruct (list_kept_as_set (disk_with []) (watcher_at 4) app_log Hnd)
    as (_ & _ & Hadd & _ & _ & Hgone).
  split; [exact Hnd|]. split; [exact Hin|].
  split; [exact (Hadd Hin) | exact Hgone].
Defined.

(** ** The dashboard's buffer *)

Lemma record_spec {A} (b : list A) (e : A) :
  (length b <= Dashboard.maxBufferSize)%nat ->
  Dashboard.record b e =
    drop (length (b ++ [e]) - Dashboard.maxBufferSize) (b ++ [e]) /\
  (length (Dashboard.record b e) <= Dashboard.maxBufferSize)%nat.
Proof.
  unfold Dashboard.record. generalize Dashboard.maxBufferSize. intros m Hb.
  destruct (m <? length (b ++ [e]))%nat eqn:E.
  - apply Nat.ltb_lt in E. rewrite length_app in E. simpl in E.
    replace (length (b ++ [e]) - m)%nat with 1%nat
      by (rewrite length_app; simpl; lia).
    split; [done|]. rewrite length_drop, length_app. simpl. lia.
  - apply Nat.ltb_ge in E.
    replace (length (b ++ [e]) - m)%nat with 0%nat by lia.
    by split.
Qed.

Lemma fold_record {A} (b es : list A) :
  (length b <= Dashboard.maxBufferSize)%nat ->
  foldl Dashboard.record b es =
    drop (length (b ++ es) - Dashboard.maxBufferSize) (b ++ es) /\
  (length (foldl Dashboard.record b es) <= Dashboard.maxBufferSize)%nat.
Proof.
  revert b. induction es as [|e es IH]; intros b Hb.
  - cbn [foldl]. rewrite app_nil_r.
    replace (length b - Dashboard.maxBufferSize)%nat with 0%nat by lia.
    by split.
  - cbn [foldl]. destruct (record_spec b e Hb) as [E Hlen].
    destruct (IH _ Hlen) as [IH1 IH2]. split; [|done].
    rewrite IH1, E.
    set (X := b ++ [e]) in *. set (m := Dashboard.maxBufferSize) in *.
    replace (b ++ e :: es) with (X ++ es) by (subst X; by rewrite <- app_assoc).
    set (k := (length X - m)%nat).
    rewrite <- (drop_app_le X es k) by (subst k; lia).
    rewrite drop_drop. f_equal.
    rewrite !length_app, length_drop, !length_app. subst k. lia.
Qed.

Lemma fold_on_line {A} (b : list A) (xs : list (bool * A)) :
  foldl (fun buf x => Dashboard.on_line x.1 buf x.2) b xs =
    foldl Dashboard.record b (snd <$> filter (fun x => x.1 = true) xs).
Proof.
  revert b. induction xs as [|[inc e] xs IH]; intros b; [done|].
  cbn [foldl]. rewrite IH, filter_cons. unfold Dashboard.on_line.
  by destruct inc.
Qed.

(** X20. The dashboard's [logBuffer] holds the last 1000 of the lines that
    passed the filter, in the order they came: after any sequence of line
    events, starting from the empty buffer, it is the sequence of entries
    kept without all but its last [maxBufferSize], and is never longer. *)
Theorem logBuffer_keeps_last {A} (xs : list (bool * A)) :
  foldl (fun buf x => Dashboard.on_line x.1 buf x.2) [] xs =
    drop (length (snd <$> filter (fun x => x.1 = true) xs)
          - Dashboard.maxBufferSize)
      (snd <$> filter (fun x => x.1 = true) xs) /\
  (length (foldl (fun buf x => Dashboard.on_line x.1 buf x.2) [] xs)
   <= Dashboard.maxBufferSize)%nat.
Proof.
  rewrite fold_on_line.
  pose proof (fold_record [] (snd <$> filter (fun x : bool * A => x.1 = true) xs))
    as H.
  rewrite app_nil_l in H. apply H. simpl. lia.
Qed.

(** X21. The route [/api/logs] returns the last [limit] entries of the
    buffer for a positive [limit], and the last 100 when the parameter is
    absent, not a number or 0. A negative [limit] is not refused: the
    first [-limit] entries are left out and all the others returned. *)
Theorem api_logs_limit {A} (logBuffer : list A) :
  (forall l, 0 < l ->
     Dashboard.api_logs (Some l) logBuffer =
       drop (length logBuffer - Z.to_nat l) logBuffer /\
     Z.of_nat (length (Dashboard.api_logs (Some l) logBuffer)) <= l) /\
  Dashboard.api_logs None logBuffer = Dashboard.api_logs (Some 100) logBuffer /\
  Dashboard.api_logs (Some 0) logBuffer =
    Dashboard.api_logs (Some 100) logBuffer /\
  (forall l, l < 0 ->
     Dashboard.api_logs (Some l) logBuffer = drop (Z.to_nat (- l)) logBuffer).
Proof.
  split_and!; try done.
  - intros l Hl. unfold Dashboard.api_logs.
    replace (l =? 0) with false by (symmetry; apply Z.eqb_neq; lia).
    split; [|by apply slice_last_length].
    unfold slice. replace (- l <? 0) with true by (symmetry; apply Z.ltb_lt; lia).
    f_equal. lia.
  - intros l Hl. unfold Dashboard.api_logs.
    replace (l =? 0) with false by (symmetry; apply Z.eqb_neq; lia).
    unfold slice. replace (- l <? 0) with false
      by (symmetry; apply Z.ltb_ge; lia).
    destruct (decide (- l <= Z.of_nat (length logBuffer))).
    + f_equal. lia.
    + rewrite !drop_ge; [done | lia | lia].
Qed.

Lemma api_logs_limit_witness :
  0 < 2 /\
  Dashboard.api_logs (Some 2) [1; 2; 3; 4; 5] = [4; 5] /\
  -2 < 0 /\
  Dashboard.api_logs (Some (-2)) [1; 2; 3; 4; 5] = [3; 4; 5].
Proof.
  destruct (api_logs_limit [1; 2; 3; 4; 5]) as (Hpos & _ & _ & Hneg).
  split; [lia|]. split; [exact (proj1 (Hpos 2 ltac:(lia)))|].
  split; [lia|]. exact (Hneg (-2) ltac:(lia)).
Defined.

(** ** [filters.ts] *)

Lemma escapeRegex_cons c s :
  Filters.escapeRegex (c :: s) =
    (if Filters.special c then [Filters.backslash; c] else [c])
    ++ Filters.escapeRegex s.
Proof. done. Qed.

Lemma escapeRegex_app s1 s2 :
  Filters.escapeRegex (s1 ++ s2) =
    Filters.escapeRegex s1 ++ Filters.escapeRegex s2.
Proof. unfold Filters.escapeRegex. apply bind_app. Qed.

Lemma special_not_backslash c :
  Filters.special c = false -> (c =? Filters.backslash)%N = false.
Proof.
  intros H. destruct (c =? Filters.backslash)%N eqn:E; [|done].
  apply N.eqb_eq in E. subst c. by vm_compute in H.
Qed.

(** X22. [escapeRegex] puts a backslash before each of the fourteen
    characters of its class and keeps every other character, in place: a
    character of the class at any position comes out as a backslash and the
    character, any other as itself, between the escaped text before and
    after it. In the result every character of the class stands behind an
    escaping backslash, taking those backslashes out gives the string back,
    and the result is longer by the number of characters of the class. So a
    string without such a character is unchanged, the result is at most
    twice as long, and two different strings never give the same result. *)
Theorem escapeRegex_faithful :
  (forall s1 c s2,
     Filters.special c = true ->
     Filters.escapeRegex (s1 ++ c :: s2) =
       Filters.escapeRegex s1 ++
       Filters.backslash :: c :: Filters.escapeRegex s2) /\
  (forall s1 c s2,
     Filters.special c = false ->
     Filters.escapeRegex (s1 ++ c :: s2) =
       Filters.escapeRegex s1 ++ c :: Filters.escapeRegex s2) /\
  (forall s, well_escaped (Filters.escapeRegex s) = true) /\
  (forall s, unescape (Filters.escapeRegex s) = s) /\
  (forall s,
     length (Filters.escapeRegex s) =
       (length s + length (filter (fun c => Filters.special c = true) s))%nat) /\
  (forall s1 s2,
     Filters.escapeRegex s1 = Filters.escapeRegex s2 -> s1 = s2) /\
  (forall s,
     Forall (fun c => Filters.special c = false) s ->
     Filters.escapeRegex s = s) /\
  (forall s,
     (length s <= length (Filters.escapeRegex s) <= 2 * length s)%nat).
Proof.
  split_and!.
  - intros s1 c s2 Hc. by rewrite escapeRegex_app, escapeRegex_cons, Hc.
  - intros s1 c s2 Hc. by rewrite escapeRegex_app, escapeRegex_cons, Hc.
  - induction s as [|c s IH]; [done|]. rewrite escapeRegex_cons.
    destruct (Filters.special c) eqn:Hc; simpl.
    + by rewrite Hc, IH.
    + by rewrite special_not_backslash, Hc, IH.
  - induction s as [|c s IH]; [done|]. rewrite escapeRegex_cons.
    destruct (Filters.special c) eqn:Hc; simpl.
    + by rewrite IH.
    + by rewrite special_not_backslash, IH.
  - unfold jsstring. induction s as [|c s IH]; [done|].
    rewrite escapeRegex_cons, length_app, IH.
    destruct (Filters.special c) eqn:Hc.
    + rewrite filter_cons_True by done. simpl. lia.
    + rewrite filter_cons_False by (rewrite Hc; discriminate). simpl. lia.
  - induction s1 as [|c1 s1 IH]; intros [|c2 s2].
    + done.
    + rewrite escapeRegex_cons. by destruct (Filters.special c2).
    + rewrite escapeRegex_cons. by destruct (Filters.special c1).
    + rewrite !escapeRegex_cons.
      destruct (Filters.special c1) eqn:E1, (Filters.special c2) eqn:E2;
        simpl; intros [=]; subst.
      * f_equal. by apply IH.
      * by vm_compute in E2.
      * by vm_compute in E1.
      * f_equal. by apply IH.
  - induction 1 as [|c s Hc Hs IH]; [done|].
    by rewrite escapeRegex_cons, Hc, IH.
  - induction s as [|c s IH]; [simpl; lia|].
    rewrite escapeRegex_cons, length_app. destruct (Filters.special c);
      simpl; lia.
Qed.

Lemma escapeRegex_faithful_witness :
  Filters.special 46%N = true /\
  Filters.escapeRegex (js "a" ++ 46%N :: js "b*") =
    Filters.escapeRegex (js "a") ++
    Filters.backslash :: 46%N :: Filters.escapeRegex (js "b*") /\
  Filters.escapeRegex (js "a.b*") = js "a\.b\*" /\
  Forall (fun c => Filters.special c = false) (js "ERROR") /\
  Filters.escapeRegex (js "ERROR") = js "ERROR".
Proof.
  destruct escapeRegex_faithful as (Hin & _ & _ & _ & _ & _ & Hid & _).
  assert (Forall (fun c => Filters.special c = false) (js "ERROR")) as H
    by (repeat constructor).
  split; [reflexivity|].
  split; [exact (Hin (js "a") 46%N (js "b*") eq_refl)|].
  split; [reflexivity|].
  split; [exact H | exact (Hid _ H)].
Defined.

Lemma incr_counted a b c d g :
  Filters.incr "json" (counted a b c d g) = counted (a + 1) b c d g /\
  Filters.incr "apache" (counted a b c d g) = counted a (b + 1) c d g /\
  Filters.incr "nginx" (counted a b c d g) = counted a b (c + 1) d g /\
  Filters.incr "syslog" (counted a b c d g) = counted a b c (d + 1) g /\
  Filters.incr "generic" (counted a b c d g) = counted a b c d (g + 1).
Proof. by split_and!. Qed.

Lemma count_line_counted tests a b c d g line :
  a <= g -> b <= g -> c <= g -> d <= g ->
  exists a' b' c' d',
    Filters.count_line tests (counted a b c d g) line =
      counted a' b' c' d' (g + 1) /\
    a' <= g + 1 /\ b' <= g + 1 /\ c' <= g + 1 /\ d' <= g + 1.
Proof.
  intros Ha Hb Hc Hd. unfold Filters.count_line.
  destruct (Filters.json_parses tests line),
    (Filters.apache_like tests line), (Filters.nginx_like tests line),
    (Filters.syslog_like tests line);
    repeat (rewrite (proj1 (incr_counted _ _ _ _ _))
            || rewrite (proj1 (proj2 (incr_counted _ _ _ _ _)))
            || rewrite (proj1 (proj2 (proj2 (incr_counted _ _ _ _ _))))
            || rewrite (proj1 (proj2 (proj2 (proj2 (incr_counted _ _ _ _ _)))))
            || rewrite (proj2 (proj2 (proj2 (proj2 (incr_counted _ _ _ _ _))))));
    eexists _, _, _, _; (split; [reflexivity|]); lia.
Qed.

Lemma fold_count_line_counted tests lines a b c d g :
  a <= g -> b <= g -> c <= g -> d <= g ->
  exists a' b' c' d' g',
    foldl (Filters.count_line tests) (counted a b c d g) lines =
      counted a' b' c' d' g' /\
    a' <= g' /\ b' <= g' /\ c' <= g' /\ d' <= g'.
Proof.
  revert a b c d g. induction lines as [|line lines IH];
    intros a b c d g Ha Hb Hc Hd.
  - by exists a, b, c, d, g.
  - cbn [foldl].
    destruct (count_line_counted tests a b c d g line Ha Hb Hc Hd)
      as (a' & b' & c' & d' & -> & Ha' & Hb' & Hc' & Hd').
    by apply IH.
Qed.

(** Reading a count of [formats], and the last comparison of [reduce]. *)
Ltac read_count F k v := change (default 0 (map_get k F)) with v.

Ltac generic_wins F k v g :=
  read_count F k v; read_count F "generic" g;
  by replace (v >? g) with false
    by (symmetry; rewrite Z.gtb_ltb; apply Z.ltb_ge; lia).

(** X23. [detectLogFormat] answers ['generic'] for every input. The count
    of [generic] goes up at every line and no other count can pass it, and
    the final [reduce] keeps its left argument only when its count is
    strictly greater, with [generic] the last key: whatever [JSON.parse]
    and the three regular expressions say of the lines, no other format is
    ever returned. *)
Theorem detectLogFormat_always_generic (tests : Filters.line_tests)
    (lines : list jsstring) :
  Filters.detectLogFormat tests lines = Some "generic".
Proof.
  unfold Filters.detectLogFormat.
  destruct (fold_count_line_counted tests (take 10 lines) 0 0 0 0 0)
    as (a & b & c & d & g & E & Ha & Hb & Hc & Hd); try lia.
  change [("json", 0); ("apache", 0); ("nginx", 0); ("syslog", 0);
          ("generic", 0)] with (counted 0 0 0 0 0).
  rewrite E. set (F := counted a b c d g).
  change (F.*1) with ["json"; "apache"; "nginx"; "syslog"; "generic"].
  cbn [Filters.reduce foldl].
  read_count F "json" a. read_count F "apache" b.
  destruct (a >? b).
  - read_count F "json" a. read_count F "nginx" c.
    destruct (a >? c).
    + read_count F "json" a. read_count F "syslog" d.
      destruct (a >? d);
        [generic_wins F "json" a g | generic_wins F "syslog" d g].
    + read_count F "nginx" c. read_count F "syslog" d.
      destruct (c >? d);
        [generic_wins F "nginx" c g | generic_wins F "syslog" d g].
  - read_count F "apache" b. read_count F "nginx" c.
    destruct (b >? c).
    + read_count F "apache" b. read_count F "syslog" d.
      destruct (b >? d);
        [generic_wins F "apache" b g | generic_wins F "syslog" d g].
    + read_count F "nginx" c. read_count F "syslog" d.
      destruct (c >? d);
        [generic_wins F "nginx" c g | generic_wins F "syslog" d g].
Qed.
